(** * English mapping practice: the grading, session and export logic of
    [src/app/page.tsx]

    The page is one React component.  Its helpers ([normalize],
    [containsAnyKeyword], [equalsAny]), the values it derives on every render
    ([allItems], [attemptedCount], [isComplete], [autoScore], [finalScore],
    [shortHints], the export text) and its event handlers are embedded below
    as Rocq functions over the state of the component; the [disabled]
    attributes and the conditional rendering of the controls give the events
    that are enabled in a state.

    Strings.  A JavaScript string is a sequence of UTF-16 code units; the
    model keeps the code units of the Latin-1 range (U+0000 to U+00FF), one
    [ascii] each, so a [string] of the Standard Library is a JavaScript string
    over that range and nothing else: a text with a code unit above U+00FF
    has no counterpart here, and no theorem speaks of one.  On the range,
    [\s] and [trim] know the white space characters U+0009 to U+000D, U+0020
    and U+00A0 (the white space of JavaScript above U+00FF is outside the
    range), and [toLowerCase] maps A-Z and the capital letters U+00C0 to
    U+00DE (U+00D7 apart) to the letter 32 places further.  [toUpperCase] is
    the converse map; the three letters whose capital form leaves the range
    or is two letters long (U+00B5, U+00DF, U+00FF) are left as they are,
    and the page applies it to stored option codes only.

    The literals of the page hold six signs above U+00FF: the bullet and the
    dash of the export text, and the typographic apostrophe, dash and quotes
    of the catalog (U+2022, U+2014, U+2019, U+2013, U+201C, U+201D).  Each is
    written here as three characters, the bytes of its UTF-8 spelling.  None
    of the six is a letter, a digit or white space, and none of the bytes
    is: the export text only concatenates them, [trim] leaves them alone,
    and [normalize] makes a separator of the sign as it does of the three
    characters.

    Answers.  The page keeps the answers in a plain object and reads
    [answers[id]]; the model keeps a finite map and reads [answers !! id].
    The two agree for every id that is not the name of a property every
    object inherits ([inherited_keys] below); the ids of the catalog are
    none of these.

    Names.  The fields [id], [label], [prompt] and [guidance] of the page are
    [opt_id], [label], [it_id], [prompt] and [guidance] here, the
    type [Section] is [Section_], and the variable [TESTS] of the page is the
    function [TESTS] on the three keys of the test selector. *)

From Stdlib Require Import Ascii NArith Bool Permutation.
From stdpp Require Import base option list gmap strings.

(** ** JavaScript string operations *)

Module JS.

Definition code (c : ascii) : N := N_of_ascii c.

Definition between (lo hi : N) (c : ascii) : bool :=
  ((lo <=? code c) && (code c <=? hi))%N.

(** The class [\s] of a regular expression, which is also what [trim]
    strips, on the range of the model: U+0009 to U+000D, U+0020, U+00A0. *)
Definition is_space (c : ascii) : bool :=
  between 9 13 c || (code c =? 32)%N || (code c =? 160)%N.

(** The class [a-z0-9]. *)
Definition is_lower_alnum (c : ascii) : bool :=
  between 97 122 c || between 48 57 c.

Definition is_upper (c : ascii) : bool :=
  between 65 90 c || (between 192 222 c && negb (code c =? 215)%N).

Definition lower_char (c : ascii) : ascii :=
  if is_upper c then ascii_of_N (code c + 32) else c.

Definition has_upper (c : ascii) : bool :=
  between 97 122 c || (between 224 254 c && negb (code c =? 247)%N).

Definition upper_char (c : ascii) : ascii :=
  if has_upper c then ascii_of_N (code c - 32) else c.

Fixpoint map_chars (f : ascii -> ascii) (s : string) : string :=
  match s with
  | EmptyString => EmptyString
  | String c s' => String (f c) (map_chars f s')
  end.

(** [s.toLowerCase()] and [s.toUpperCase()] on the range of the model;
    the second one but for U+00B5, U+00DF and U+00FF, which it leaves as
    they are. *)
Definition toLowerCase (s : string) : string := map_chars lower_char s.
Definition toUpperCase (s : string) : string := map_chars upper_char s.

Definition space : ascii := ascii_of_N 32.

(** [s.replace(/[^a-z0-9\s]/g, " ")]: every character outside the class
    becomes one space. *)
Definition replace_non_alnum (s : string) : string :=
  map_chars (fun c => if is_lower_alnum c || is_space c then c else space) s.

(** [s.replace(/\s+/g, " ")]: the scan goes left to right and every maximal
    run of white space becomes one space.  [in_run] tells that the character
    before belongs to the run being replaced. *)
Fixpoint replace_space_runs_from (in_run : bool) (s : string) : string :=
  match s with
  | EmptyString => EmptyString
  | String c s' =>
      if is_space c
      then if in_run then replace_space_runs_from true s'
           else String space (replace_space_runs_from true s')
      else String c (replace_space_runs_from false s')
  end.

Definition replace_space_runs (s : string) : string :=
  replace_space_runs_from false s.

Fixpoint trimStart (s : string) : string :=
  match s with
  | EmptyString => EmptyString
  | String c s' => if is_space c then trimStart s' else s
  end.

Definition is_empty (s : string) : bool :=
  match s with EmptyString => true | String _ _ => false end.

Fixpoint trimEnd (s : string) : string :=
  match s with
  | EmptyString => EmptyString
  | String c s' =>
      let r := trimEnd s' in
      if is_space c && is_empty r then EmptyString else String c r
  end.

Definition trim (s : string) : string := trimEnd (trimStart s).

(** [p] is a prefix of [s]. *)
Fixpoint startsWith (s p : string) {struct p} : bool :=
  match p, s with
  | EmptyString, _ => true
  | String _ _, EmptyString => false
  | String a p', String b s' => Ascii.eqb a b && startsWith s' p'
  end.

(** [s.includes(p)]: [p] occurs in [s] at some position. *)
Fixpoint includes (s p : string) : bool :=
  startsWith s p ||
  match s with
  | EmptyString => false
  | String _ s' => includes s' p
  end.

(** [parts.join(sep)] *)
Fixpoint join (sep : string) (parts : list string) : string :=
  match parts with
  | [] => ""
  | [p] => p
  | p :: rest => p +:+ sep +:+ join sep rest
  end.

(** [arr.includes(x)] on an array of strings. *)
Definition array_includes (arr : list string) (x : string) : bool :=
  existsb (String.eqb x) arr.

(** The value of [v || ""] for [v] a string or [undefined]: the empty string
    is falsy as well. *)
Definition or_empty (v : option string) : string := default "" v.

(** [!!v] for [v] a string or [undefined]. *)
Definition truthy (v : option string) : bool :=
  match v with
  | Some s => negb (is_empty s)
  | None => false
  end.

(** What string concatenation makes of a value that may be [undefined]. *)
Definition to_string (v : option string) : string := default "undefined" v.

Definition newline : string := String (ascii_of_N 10) "".

End JS.

(** ** Helpers *)

Definition normalize (s : option string) : string :=
  JS.trim (JS.replace_space_runs (JS.replace_non_alnum (JS.toLowerCase (JS.or_empty s)))).

(** [keywords] and [accepted] default to the empty array when the caller
    leaves them out. *)
Definition containsAnyKeyword (text : string) (keywords : option (list string)) : bool :=
  let t := normalize (Some text) in
  existsb (fun k => JS.includes t (normalize (Some k))) (default [] keywords).

Definition equalsAny (text : string) (accepted : option (list string)) : bool :=
  let t := normalize (Some text) in
  JS.array_includes (map (fun c => normalize (Some c)) (default [] accepted)) t.


(** ** Question types *)

(** The option codes, the type ["a" | "b" | "c"] of the page. *)
Inductive OptionId := opt_a | opt_b | opt_c.

Definition code_of (o : OptionId) : string :=
  match o with opt_a => "a" | opt_b => "b" | opt_c => "c" end.

(** [MCQOption], with [opt_id] for its field [id]. *)
Record MCQOption := { opt_id : OptionId; label : string }.

(** [ItemBase], with [it_id] for its field [id]; [guidance] is optional. *)
Record ItemBase := { it_id : string; prompt : string; guidance : option string }.

(** [Item], the union of the four item types; the constructor is the [type]
    tag.  [keywords] is an optional field. *)
Inductive Item :=
| MCQItem (base : ItemBase) (options : list MCQOption) (answer : OptionId)
| TextAutoItem (base : ItemBase) (acceptedAnswers : list string)
| ShortItem (base : ItemBase) (keywords : option (list string))
| WritingItem (base : ItemBase).

Inductive ItemType := mcq | text | short | writing.

Definition item_type (it : Item) : ItemType :=
  match it with
  | MCQItem _ _ _ => mcq
  | TextAutoItem _ _ => text
  | ShortItem _ _ => short
  | WritingItem _ => writing
  end.

Definition item_base (it : Item) : ItemBase :=
  match it with
  | MCQItem b _ _ | TextAutoItem b _ | ShortItem b _ | WritingItem b => b
  end.

Definition item_id (it : Item) : string := it_id (item_base it).
Definition item_prompt (it : Item) : string := prompt (item_base it).

Record Section_ := { sec_id : string; name : string; items : list Item }.

Record Test := {
  title : string;
  readingTitle : string;
  readingText : string;
  sections : list Section_
}.

(** An element of [allItems]: the item with the name of its section. *)
Record SectionItem := { item : Item; sectionName : string }.

(** ** The values derived from the selected test and the answers *)

(** [answers] is a [Record<string, string>]: a finite map from item ids to
    strings, and [answers[id]] is [undefined] for an id with no entry. *)
Abbreviation Answers := (gmap string string).

Definition allItems (TEST : Test) : list SectionItem :=
  flat_map (fun s => map (fun it => {| item := it; sectionName := name s |}) (items s))
           (sections TEST).

Definition is_auto_scored (it : SectionItem) : bool :=
  match item_type (item it) with
  | mcq | text => true
  | short | writing => false
  end.

Definition autoScoredItems (TEST : Test) : list SectionItem :=
  filter (fun it => is_auto_scored it = true) (allItems TEST).

Definition totalAutoPoints (TEST : Test) : nat := length (autoScoredItems TEST).
Definition totalPoints (TEST : Test) : nat := totalAutoPoints TEST + 1.

(** The callback shared by [attemptedCount] and [isComplete].  The lookup
    is that of a finite map: it is the page's [answers[it.id]] for every id
    that is not the name of an inherited property. *)
Definition attempted (answers : Answers) (it : SectionItem) : bool :=
  let a := answers !! item_id (item it) in
  match item_type (item it) with
  | mcq => JS.truthy a
  | _ =>
      match a with
      | Some s => negb (JS.is_empty (JS.trim s))
      | None => false
      end
  end.

Definition attemptedCount (TEST : Test) (answers : Answers) : nat :=
  length (filter (fun it => attempted answers it = true) (allItems TEST)).

Definition isComplete (TEST : Test) (answers : Answers) : bool :=
  forallb (attempted answers) (allItems TEST).

(** One turn of the loop of [autoScore]. *)
Definition autoScore_step (answers : Answers) (correct : nat) (it : SectionItem) : nat :=
  let given := JS.or_empty (answers !! item_id (item it)) in
  match item it with
  | MCQItem _ _ answer =>
      if String.eqb given (code_of answer) then correct + 1 else correct
  | TextAutoItem _ acceptedAnswers =>
      if equalsAny given (Some acceptedAnswers) then correct + 1 else correct
  | _ => correct
  end.

Definition autoScore (TEST : Test) (answers : Answers) : nat :=
  fold_left (autoScore_step answers) (autoScoredItems TEST) 0.

(** [selfScoreWriting ?? 0] *)
Definition finalScore (TEST : Test) (answers : Answers) (selfScoreWriting : option nat) : nat :=
  autoScore TEST answers + default 0 selfScoreWriting.

Record Hint := {
  hint_id : string;
  hint_prompt : string;
  ok : bool;
  hasHint : bool;
  hint_keywords : list string
}.

(** [it.keywords?.length]: a number, or [undefined] when the field is absent;
    truthy when the list is there and not empty. *)
Definition keywords_length_truthy (keywords : option (list string)) : bool :=
  match keywords with
  | Some (_ :: _) => true
  | _ => false
  end.

Definition shortHint (answers : Answers) (base : ItemBase) (keywords : option (list string)) : Hint :=
  let text := JS.or_empty (answers !! it_id base) in
  {| hint_id := it_id base;
     hint_prompt := prompt base;
     ok := negb (JS.is_empty (JS.trim text));
     hasHint := if keywords_length_truthy keywords
                then containsAnyKeyword text keywords else true;
     hint_keywords := default [] keywords |}.

(** [it.keywords]: [undefined] on an item that has no such field. *)
Definition item_keywords (it : Item) : option (list string) :=
  match it with
  | ShortItem _ keywords => keywords
  | _ => None
  end.

Definition is_short (it : SectionItem) : bool :=
  match item_type (item it) with short => true | _ => false end.

Definition shortHints (TEST : Test) (answers : Answers) : list Hint :=
  let shortItems := filter (fun it => is_short it = true) (allItems TEST) in
  map (fun it => shortHint answers (item_base (item it)) (item_keywords (item it)))
      shortItems.

(** ** The export text *)

Definition bullet : string := "•".
Definition dash : string := "—".

(** [it.options.find((o) => o.id === a)?.label] *)
Definition find_label (options : list MCQOption) (a : option string) : option string :=
  label <$>
    List.find (fun o => match a with
                        | Some v => String.eqb (code_of (opt_id o)) v
                        | None => false
                        end) options.

(** The text after [Answer: ] in the block of one item. *)
Definition export_answer (answers : Answers) (it : Item) : string :=
  let a := answers !! item_id it in
  match it with
  | MCQItem _ options _ =>
      let label := find_label options a in
      if JS.truthy a
      then JS.toUpperCase (JS.or_empty a) +:+ ") " +:+ JS.to_string label
      else dash
  | _ =>
      if JS.truthy a && negb (JS.is_empty (JS.trim (JS.or_empty a)))
      then JS.or_empty a
      else dash
  end.

Definition export_block (answers : Answers) (s : Section_) (it : Item) : string :=
  name s +:+ " " +:+ bullet +:+ " " +:+ item_prompt it +:+ JS.newline +:+
  "Answer: " +:+ export_answer answers it.

Definition exportText (TEST : Test) (answers : Answers) : string :=
  JS.join (JS.newline +:+ JS.newline)
    (flat_map (fun s => map (export_block answers s) (items s)) (sections TEST)).

(** ** The state of the component, its events and handlers *)

(** The three entries of the test selector. *)
Inductive TestKey := original | day1 | day2.

Inductive Tab := read | test | results.

Record Session := {
  selectedTestKey : TestKey;
  tab : Tab;
  answers : Answers;
  selfScoreWriting : option nat;
  finished : bool
}.

Definition initial_session : Session :=
  {| selectedTestKey := day1; tab := read; answers := ∅;
     selfScoreWriting := None; finished := false |}.

Definition setTab (t : Tab) (s : Session) : Session :=
  {| selectedTestKey := selectedTestKey s; tab := t; answers := answers s;
     selfScoreWriting := selfScoreWriting s; finished := finished s |}.

Definition setAnswer (id value : string) (s : Session) : Session :=
  {| selectedTestKey := selectedTestKey s; tab := tab s;
     answers := <[id := value]> (answers s);
     selfScoreWriting := selfScoreWriting s; finished := finished s |}.

Definition setSelfScoreWriting (n : nat) (s : Session) : Session :=
  {| selectedTestKey := selectedTestKey s; tab := tab s; answers := answers s;
     selfScoreWriting := Some n; finished := finished s |}.

Definition resetAllToReading (s : Session) : Session :=
  {| selectedTestKey := selectedTestKey s; tab := read; answers := ∅;
     selfScoreWriting := None; finished := false |}.

Definition onChangeTest (key : TestKey) (s : Session) : Session :=
  {| selectedTestKey := key; tab := read; answers := ∅;
     selfScoreWriting := None; finished := false |}.

(** The [onClick] of the Finish button. *)
Definition finish (s : Session) : Session :=
  {| selectedTestKey := selectedTestKey s; tab := results; answers := answers s;
     selfScoreWriting := selfScoreWriting s; finished := true |}.

(** What the user can do to the page: one event per control. *)
Inductive Event :=
| SelectTest (key : TestKey)
| ClickReading
| ClickTest
| ClickResults
| ClickReset
| ClickStartTest
| ChooseOption (id : string) (value : OptionId)
| TypeAnswer (id value : string)
| ClickSelfScore (point : bool)
| ClickFinish
| ClickBackToTest
| ClickStartOver.

Definition tab_eqb (x y : Tab) : bool :=
  match x, y with
  | read, read | test, test | results, results => true
  | _, _ => false
  end.

Definition option_id_eqb (x y : OptionId) : bool :=
  match x, y with
  | opt_a, opt_a | opt_b, opt_b | opt_c, opt_c => true
  | _, _ => false
  end.

(** [tab === "test" && !finished], the [disabled] attribute of the test
    selector and of the Reading button. *)
Definition test_in_progress (s : Session) : bool :=
  tab_eqb (tab s) test && negb (finished s).

(** The item [id] of the test shows a radio button for [value]. *)
Definition has_radio (TEST : Test) (id : string) (value : OptionId) : bool :=
  existsb (fun it => match item it with
                     | MCQItem base options _ =>
                         String.eqb (it_id base) id &&
                         existsb (fun o => option_id_eqb (opt_id o) value) options
                     | _ => false
                     end) (allItems TEST).

(** The item [id] of the test shows a text area. *)
Definition has_textarea (TEST : Test) (id : string) : bool :=
  existsb (fun it => match item_type (item it) with
                     | mcq => false
                     | _ => String.eqb (item_id (item it)) id
                     end) (allItems TEST).

Definition has_writing (TEST : Test) : bool :=
  existsb (fun it => match item_type (item it) with writing => true | _ => false end)
          (allItems TEST).

Section App.

(** The catalog [TESTS], read at the selected key. *)
Variable catalog : TestKey -> Test.

Definition TEST (s : Session) : Test := catalog (selectedTestKey s).

(** The control of the event is on the page and is not disabled. *)
Definition enabled (s : Session) (e : Event) : bool :=
  match e with
  | SelectTest _ => negb (test_in_progress s)
  | ClickReading => negb (test_in_progress s)
  | ClickTest => true
  | ClickResults => finished s
  | ClickReset => true
  | ClickStartTest => tab_eqb (tab s) read
  | ChooseOption id value => tab_eqb (tab s) test && has_radio (TEST s) id value
  | TypeAnswer id _ => tab_eqb (tab s) test && has_textarea (TEST s) id
  | ClickSelfScore _ => tab_eqb (tab s) test && has_writing (TEST s)
  | ClickFinish => tab_eqb (tab s) test && isComplete (TEST s) (answers s)
  | ClickBackToTest => tab_eqb (tab s) results
  | ClickStartOver => tab_eqb (tab s) results
  end.

(** The handler of the event. *)
Definition handle (e : Event) (s : Session) : Session :=
  match e with
  | SelectTest key => onChangeTest key s
  | ClickReading => setTab read s
  | ClickTest | ClickStartTest | ClickBackToTest => setTab test s
  | ClickResults => setTab results s
  | ClickReset | ClickStartOver => resetAllToReading s
  | ChooseOption id value => setAnswer id (code_of value) s
  | TypeAnswer id value => setAnswer id value s
  | ClickSelfScore point => setSelfScoreWriting (if point then 1 else 0) s
  | ClickFinish => finish s
  end.

Inductive step (s : Session) : Event -> Session -> Prop :=
| step_event e : enabled s e = true -> step s e (handle e s).

Inductive reachable : Session -> Prop :=
| reachable_initial : reachable initial_session
| reachable_step s e s' : reachable s -> step s e s' -> reachable s'.

(** Running a list of events, when each one is enabled in its turn. *)
Fixpoint run (events : list Event) (s : Session) : option Session :=
  match events with
  | [] => Some s
  | e :: rest => if enabled s e then run rest (handle e s) else None
  end.

End App.

(** ** The catalog *)

Definition TEST_original : Test := {|
  title := "Practice Test – Mixed Skills";
  readingTitle := "A New School Year";
  readingText := "Emma started 8th grade last Monday. She was nervous but excited. Her new school was bigger than her old one, and she had to find her classrooms on her own. At first, it was confusing, but her teachers were friendly and helpful.

Emma’s favourite subject is English because she enjoys reading and writing stories. This year, she also joined the school drama club. She hopes it will help her become more confident.";
  sections := [
    {| sec_id := "reading"; name := "Task 1: Reading Comprehension";
       items := [
        ShortItem {| it_id := "r1"; prompt := "How did Emma feel about starting 8th grade?";
            guidance := (Some "Write 1 sentence.") |}
          (Some ["nervous"; "excited"]);
        ShortItem {| it_id := "r2"; prompt := "Why was the new school difficult at first?";
            guidance := (Some "Write 1 sentence.") |}
          (Some ["bigger"; "find"; "classrooms"; "on her own"; "confusing"]);
        ShortItem {| it_id := "r3"; prompt := "What is Emma’s favourite subject, and why?";
            guidance := (Some "Write 1 sentence.") |}
          (Some ["English"; "reading"; "writing"; "stories"]);
        ShortItem {| it_id := "r4"; prompt := "What does Emma hope the drama club will help her with?";
            guidance := (Some "Write 1 sentence.") |}
          (Some ["confident"; "confidence"]) ] |};
    {| sec_id := "vocab"; name := "Task 2: Vocabulary";
       items := [
        MCQItem {| it_id := "v1"; prompt := "Emma was ______ about her new school.";
            guidance := None |}
          [{| opt_id := opt_a; label := "angry" |}; {| opt_id := opt_b; label := "excited" |}; {| opt_id := opt_c; label := "bored" |}]
          opt_b;
        MCQItem {| it_id := "v2"; prompt := "The teachers were friendly and ______.";
            guidance := None |}
          [{| opt_id := opt_a; label := "helpful" |}; {| opt_id := opt_b; label := "noisy" |}; {| opt_id := opt_c; label := "strict" |}]
          opt_a;
        MCQItem {| it_id := "v3"; prompt := "Emma enjoys ______ stories.";
            guidance := None |}
          [{| opt_id := opt_a; label := "breaking" |}; {| opt_id := opt_b; label := "reading" |}; {| opt_id := opt_c; label := "losing" |}]
          opt_b ] |};
    {| sec_id := "grammar"; name := "Task 3: Grammar";
       items := [
        MCQItem {| it_id := "g1"; prompt := "Emma ___ to school last Monday.";
            guidance := None |}
          [{| opt_id := opt_a; label := "go" |}; {| opt_id := opt_b; label := "goes" |}; {| opt_id := opt_c; label := "went" |}]
          opt_c;
        MCQItem {| it_id := "g2"; prompt := "She ___ English lessons every week.";
            guidance := None |}
          [{| opt_id := opt_a; label := "has" |}; {| opt_id := opt_b; label := "had" |}; {| opt_id := opt_c; label := "will have" |}]
          opt_a;
        MCQItem {| it_id := "g3"; prompt := "They ___ in the drama club tomorrow.";
            guidance := None |}
          [{| opt_id := opt_a; label := "are" |}; {| opt_id := opt_b; label := "were" |}; {| opt_id := opt_c; label := "will be" |}]
          opt_c ] |};
    {| sec_id := "structure"; name := "Task 4: Sentence Structure";
       items := [
        TextAutoItem {| it_id := "s1"; prompt := "Put the words in the correct order: school / new / her / likes / she";
            guidance := (Some "Type the full sentence.") |}
          ["She likes her new school."];
        TextAutoItem {| it_id := "s2"; prompt := "Put the words in the correct order: English / favourite / is / subject / her";
            guidance := (Some "Type the full sentence.") |}
          ["English is her favourite subject."] ] |};
    {| sec_id := "writing"; name := "Task 5: Writing";
       items := [
        WritingItem {| it_id := "w1"; prompt := "Write 6–8 sentences about ONE: (1) Your favourite school subject, (2) Your first day at a new school, or (3) A hobby you enjoy.";
            guidance := (Some "Use full sentences. Try correct verb tenses, spelling, and punctuation.") |} ] |};
    {| sec_id := "instructions"; name := "Task 6: Instructions & Understanding";
       items := [
        ShortItem {| it_id := "i1"; prompt := "Describe one thing you like about your school. (2–3 sentences.)";
            guidance := (Some "Write 2–3 sentences.") |}
          None ] |};
    {| sec_id := "listening"; name := "Task 7: Listening-style (Reading Instead)";
       items := [
        ShortItem {| it_id := "l1"; prompt := "Dialogue: Teacher: “Did you finish your homework?” Student: “I started it, but I didn’t understand the last task.”

Question: Why didn’t the student finish the homework?";
            guidance := (Some "Write 1 sentence.") |}
          (Some ["didn’t understand"; "last task"]) ] |} ]
|}.

Definition TEST_day1 : Test := {|
  title := "Practice Test – Reading & Vocabulary";
  readingTitle := "After School Activities";
  readingText := "Many students enjoy after-school activities. Some prefer sports like football or basketball, while others choose music, drama, or art clubs. These activities help students relax after a long school day and make new friends.

Jake joined the school football team this year. At first, he felt unsure because he had never played before. However, his teammates supported him, and now he looks forward to practice every week.";
  sections := [
    {| sec_id := "reading"; name := "Task 1: Reading Comprehension";
       items := [
        ShortItem {| it_id := "q1"; prompt := "Why do many students like after-school activities?";
            guidance := (Some "Write 1–2 sentences.") |}
          (Some ["relax"; "friends"; "make new friends"]);
        ShortItem {| it_id := "q2"; prompt := "Name two types of after-school activities mentioned in the text.";
            guidance := (Some "Write two activities.") |}
          (Some ["football"; "basketball"; "music"; "drama"; "art"]);
        ShortItem {| it_id := "q3"; prompt := "How did Jake feel at first when he joined the football team?";
            guidance := (Some "Write 1 sentence.") |}
          (Some ["unsure"]);
        ShortItem {| it_id := "q4"; prompt := "Why does Jake enjoy practice now?";
            guidance := (Some "Write 1 sentence.") |}
          (Some ["teammates"; "supported"; "support"]) ] |};
    {| sec_id := "vocab"; name := "Task 2: Vocabulary";
       items := [
        MCQItem {| it_id := "mc1"; prompt := "After-school activities help students ______.";
            guidance := None |}
          [{| opt_id := opt_a; label := "worry" |}; {| opt_id := opt_b; label := "relax" |}; {| opt_id := opt_c; label := "argue" |}]
          opt_b;
        MCQItem {| it_id := "mc2"; prompt := "Jake felt ______ at first.";
            guidance := None |}
          [{| opt_id := opt_a; label := "confident" |}; {| opt_id := opt_b; label := "unsure" |}; {| opt_id := opt_c; label := "angry" |}]
          opt_b;
        MCQItem {| it_id := "mc3"; prompt := "His teammates ______ him.";
            guidance := None |}
          [{| opt_id := opt_a; label := "ignored" |}; {| opt_id := opt_b; label := "supported" |}; {| opt_id := opt_c; label := "forgot" |}]
          opt_b ] |};
    {| sec_id := "context"; name := "Task 3: Vocabulary in Context";
       items := [
        MCQItem {| it_id := "mc4"; prompt := "I like joining clubs because I can make new ______.";
            guidance := None |}
          [{| opt_id := opt_a; label := "homework" |}; {| opt_id := opt_b; label := "friends" |}; {| opt_id := opt_c; label := "teachers" |}]
          opt_b;
        MCQItem {| it_id := "mc5"; prompt := "She looks forward to football ______ every week.";
            guidance := None |}
          [{| opt_id := opt_a; label := "practice" |}; {| opt_id := opt_b; label := "break" |}; {| opt_id := opt_c; label := "lesson" |}]
          opt_a ] |};
    {| sec_id := "writing"; name := "Task 4: Short Answer";
       items := [
        WritingItem {| it_id := "wDay1"; prompt := "What after-school activity would you like to join, and why?";
            guidance := (Some "Write ONE full sentence.") |} ] |};
    {| sec_id := "title"; name := "Task 5: Instructions";
       items := [
        MCQItem {| it_id := "mc6"; prompt := "Choose the best title for the text.";
            guidance := None |}
          [{| opt_id := opt_a; label := "A Difficult School Day" |}; {| opt_id := opt_b; label := "Learning in the Classroom" |}; {| opt_id := opt_c; label := "After-School Activities" |}]
          opt_c ] |} ]
|}.

Definition TEST_day2 : Test := {|
  title := "Practice Test – Grammar & Sentences";
  readingTitle := "School Life";
  readingText := "Tom goes to a secondary school in a small town. He likes English lessons, but he finds grammar difficult. Every day, he practices by writing short sentences and reading English texts.";
  sections := [
    {| sec_id := "grammar"; name := "Task 1: Grammar (Choose the correct answer)";
       items := [
        MCQItem {| it_id := "d2_1"; prompt := "Tom ____ to a secondary school.";
            guidance := None |}
          [{| opt_id := opt_a; label := "go" |}; {| opt_id := opt_b; label := "goes" |}; {| opt_id := opt_c; label := "went" |}]
          opt_b;
        MCQItem {| it_id := "d2_2"; prompt := "He ____ grammar difficult.";
            guidance := None |}
          [{| opt_id := opt_a; label := "finds" |}; {| opt_id := opt_b; label := "found" |}; {| opt_id := opt_c; label := "will find" |}]
          opt_a;
        MCQItem {| it_id := "d2_3"; prompt := "Yesterday, Tom ____ English texts.";
            guidance := None |}
          [{| opt_id := opt_a; label := "reads" |}; {| opt_id := opt_b; label := "read" |}; {| opt_id := opt_c; label := "will read" |}]
          opt_b ] |};
    {| sec_id := "sentences"; name := "Task 2: Build sentences";
       items := [
        TextAutoItem {| it_id := "d2_s1"; prompt := "Write this in the past tense: “Tom goes to school.”";
            guidance := (Some "Type the full sentence.") |}
          ["Tom went to school."];
        ShortItem {| it_id := "d2_s2"; prompt := "Write one sentence in the present tense about yourself.";
            guidance := (Some "Example: I play football. / I like English.") |}
          None;
        ShortItem {| it_id := "d2_s3"; prompt := "Write one sentence in the future tense about tomorrow.";
            guidance := (Some "Example: I will study English tomorrow.") |}
          (Some ["will"]) ] |};
    {| sec_id := "writing"; name := "Task 3: Short Writing";
       items := [
        WritingItem {| it_id := "d2_w1"; prompt := "Write 3–4 sentences: How do you practice English outside school?";
            guidance := (Some "Use full sentences.") |} ] |} ]
|}.

Definition TESTS (key : TestKey) : Test :=
  match key with
  | original => TEST_original
  | day1 => TEST_day1
  | day2 => TEST_day2
  end.

(** ** The normal form of a string *)

(** Every character of [s] is a lower-case letter, a digit or the space,
    and no space follows another; with [after_space] the string does not
    begin with a space either. *)
Fixpoint single_spaced (after_space : bool) (s : string) : bool :=
  match s with
  | EmptyString => true
  | String c s' =>
      if Ascii.eqb c JS.space
      then negb after_space && single_spaced true s'
      else JS.is_lower_alnum c && single_spaced false s'
  end.

(** Words of lower-case letters and digits with one space between them:
    no space first, none last. *)
Definition is_normal (s : string) : bool :=
  single_spaced true s && String.eqb (JS.trimEnd s) s.

(** Every character of [s] satisfies [p]. *)
Fixpoint all_chars (p : ascii -> bool) (s : string) : bool :=
  match s with
  | EmptyString => true
  | String c s' => p c && all_chars p s'
  end.

Definition all_space (s : string) : bool := all_chars JS.is_space s.
Definition no_space (s : string) : bool := all_chars (fun c => negb (JS.is_space c)) s.

(** [s] is empty or begins with a character that is not white space. *)
Definition no_leading_space (s : string) : bool :=
  match s with
  | EmptyString => true
  | String c _ => negb (JS.is_space c)
  end.

(** ** Reference definitions, in the words of the specification *)

(** The stored answer of an item, a missing one read as the empty string. *)
Definition stored (answers : Answers) (it : SectionItem) : string :=
  JS.or_empty (answers !! item_id (item it)).

(** An mcq item whose stored code is the item's answer. *)
Definition mcq_correct (answers : Answers) (it : SectionItem) : bool :=
  match item it with
  | MCQItem _ _ answer => String.eqb (stored answers it) (code_of answer)
  | _ => false
  end.

(** A text item whose stored answer equals one of the accepted answers. *)
Definition text_correct (answers : Answers) (it : SectionItem) : bool :=
  match item it with
  | TextAutoItem _ acceptedAnswers => equalsAny (stored answers it) (Some acceptedAnswers)
  | _ => false
  end.

Definition count {A} (p : A -> bool) (l : list A) : nat :=
  length (filter (fun x => p x = true) l).

#[global] Instance ItemType_eq_dec : EqDecision ItemType.
Proof. solve_decision. Defined.

#[global] Instance OptionId_eq_dec : EqDecision OptionId.
Proof. solve_decision. Defined.

#[global] Instance TestKey_eq_dec : EqDecision TestKey.
Proof. solve_decision. Defined.

#[global] Instance Event_eq_dec : EqDecision Event.
Proof. solve_decision. Defined.

(** The test with the items of one type taken out of every section. *)
Definition without_type (ty : ItemType) (T : Test) : Test :=
  {| title := title T; readingTitle := readingTitle T; readingText := readingText T;
     sections :=
       map (fun s => {| sec_id := sec_id s; name := name s;
                        items := filter (fun it => item_type it <> ty) (items s) |})
           (sections T) |}.

(** The test with one more section, made of writing items only. *)
Definition with_writing_section (T : Test) (sid sname : string) (bases : list ItemBase) : Test :=
  {| title := title T; readingTitle := readingTitle T; readingText := readingText T;
     sections := sections T ++ [ {| sec_id := sid; name := sname;
                                    items := map WritingItem bases |} ] |}.

(** One rule for the export text of all item types: the dash for a
    missing or white-space-only answer, the capital code and the label of
    the option for an mcq item, the stored string for the others.  Where an
    mcq item stores a string that is the code of none of its options, a
    case the specification has no rule for, it takes what the page prints,
    the word undefined in the place of the label. *)
Definition spec_export_answer (answers : Answers) (it : Item) : string :=
  let a := answers !! item_id it in
  if JS.is_empty (JS.trim (JS.or_empty a)) then dash
  else match it with
       | MCQItem _ options _ =>
           JS.toUpperCase (JS.or_empty a) +:+ ") " +:+ JS.to_string (find_label options a)
       | _ => JS.or_empty a
       end.

(** The capital letter of an option code. *)
Definition capital (k : OptionId) : string :=
  match k with opt_a => "A" | opt_b => "B" | opt_c => "C" end.

(** The ids of the items are unique within every test of the catalog. *)
Definition unique_ids (catalog : TestKey -> Test) : Prop :=
  forall key, NoDup (map (fun it => item_id (item it)) (allItems (catalog key))).

(** What an mcq item of the selected test stores, if anything, is the code
    of one of its options. *)
Definition mcq_answers_are_codes (catalog : TestKey -> Test) (s : Session) : Prop :=
  forall it base options answer v,
    it ∈ allItems (TEST catalog s) ->
    item it = MCQItem base options answer ->
    answers s !! it_id base = Some v ->
    exists o, o ∈ options /\ v = code_of (opt_id o).

Definition spec_exportText (T : Test) (answers : Answers) : string :=
  JS.join (JS.newline +:+ JS.newline)
    (flat_map (fun s => map (fun it =>
        name s +:+ " " +:+ bullet +:+ " " +:+ item_prompt it +:+ JS.newline +:+
        "Answer: " +:+ spec_export_answer answers it) (items s)) (sections T)).

(** The navigation guard as the specification words it: once the test view
    is active and the session unfinished, no run of events without a
    successful finish brings the view back to reading or changes the
    selected test. *)
Definition blocked_until_finish (catalog : TestKey -> Test) : Prop :=
  forall s events s',
    reachable catalog s ->
    test_in_progress s = true ->
    run catalog events s = Some s' ->
    ClickFinish ∉ events ->
    tab s' <> read /\ selectedTestKey s' = selectedTestKey s.

(** A small test and answers for the examples. *)
Definition answers_day2_all : Answers :=
  <["d2_1" := "b"]> (<["d2_2" := "a"]> (<["d2_3" := "b"]>
  (<["d2_s1" := "tom went to school"]> (<["d2_s2" := "I like English."]>
  (<["d2_s3" := "I will study."]> (<["d2_w1" := "I read books."]> ∅)))))).

(** The items of one type. *)
Definition is_type (ty : ItemType) (it : SectionItem) : bool :=
  bool_decide (item_type (item it) = ty).

(** The test with the keywords of every short item rewritten by [f]. *)
Definition set_item_keywords (f : ItemBase -> option (list string) -> option (list string))
    (it : Item) : Item :=
  match it with
  | ShortItem base keywords => ShortItem base (f base keywords)
  | _ => it
  end.

Definition set_keywords (f : ItemBase -> option (list string) -> option (list string))
    (T : Test) : Test :=
  {| title := title T; readingTitle := readingTitle T; readingText := readingText T;
     sections :=
       map (fun s => {| sec_id := sec_id s; name := name s;
                        items := map (set_item_keywords f) (items s) |})
           (sections T) |}.

(** ** Letters, digits and separators *)

(** A letter a-z or A-Z, or a digit: what [normalize] keeps of a string.
    Below, a letter is always one of these: the accented letters of the
    Latin-1 range are outside the class [a-z0-9] of the page. *)
Definition is_alnum_any (c : ascii) : bool := JS.is_lower_alnum (JS.lower_char c).

(** Two characters that [normalize] cannot tell apart: the same letter or
    digit up to case, or two characters that are neither. *)
Definition same_class (c d : ascii) : bool :=
  if is_alnum_any c then Ascii.eqb (JS.lower_char c) (JS.lower_char d)
  else negb (is_alnum_any d).

(** Two strings of the same length with characters of the same class at
    every position. *)
Fixpoint same_classes (s t : string) : bool :=
  match s, t with
  | EmptyString, EmptyString => true
  | String c s', String d t' => same_class c d && same_classes s' t'
  | _, _ => false
  end.

(** No character of the string is a letter or a digit. *)
Definition no_alnum (s : string) : bool := all_chars (fun c => negb (is_alnum_any c)) s.

(** The character that stands for [c] after the first two stages of
    [normalize], the change of case and the first replacement. *)
Definition staged (c : ascii) : ascii :=
  let l := JS.lower_char c in
  if JS.is_lower_alnum l || JS.is_space l then l else JS.space.

(** ** Scores, item by item *)

(** What one item adds to the auto-score: one when it is an mcq or a text
    item answered correctly, nothing otherwise. *)
Definition contribution (answers : Answers) (it : SectionItem) : nat :=
  if mcq_correct answers it || text_correct answers it then 1 else 0.

(** The ids of the items of a test are unique. *)
Definition unique_item_ids (T : Test) : Prop :=
  NoDup (map (fun it => item_id (item it)) (allItems T)).

(** A correct answer for the item, when it is an mcq item or a text item
    with an accepted answer. *)
Definition correct_entry (it : SectionItem) : option (string * string) :=
  match item it with
  | MCQItem base _ answer => Some (it_id base, code_of answer)
  | TextAutoItem base (c :: _) => Some (it_id base, c)
  | _ => None
  end.

(** The answer map with a correct answer for every auto-scored item. *)
Definition correct_answers (T : Test) : Answers :=
  list_to_map (omap correct_entry (allItems T)).

(** A text item accepts at least one answer. *)
Definition accepts_something (it : SectionItem) : bool :=
  match item it with
  | TextAutoItem _ [] => false
  | _ => true
  end.

(** Every accepted answer of a text item has a letter or a digit. *)
Definition accepts_no_blank (it : SectionItem) : bool :=
  match item it with
  | TextAutoItem _ acceptedAnswers => forallb (fun c => negb (no_alnum c)) acceptedAnswers
  | _ => true
  end.

(** ** Runs of events *)

(** An event that answers the item: a click on its first radio button, or
    a letter typed into its text area. *)
Definition answer_events (it : SectionItem) : list Event :=
  match item it with
  | MCQItem base (o :: _) _ => [ChooseOption (it_id base) (opt_id o)]
  | MCQItem _ [] _ => []
  | _ => [TypeAnswer (item_id (item it)) "x"]
  end.

(** Open the test view, answer every item in turn, click Finish. *)
Definition finishing_run (T : Test) : list Event :=
  ClickTest :: flat_map answer_events (allItems T) ++ [ClickFinish].

(** An mcq item has at least one option to choose. *)
Definition has_options (it : SectionItem) : bool :=
  match item it with
  | MCQItem _ [] _ => false
  | _ => true
  end.

(** The id has an answer that is not white space only. *)
Definition nonblank (answers : Answers) (id : string) : Prop :=
  exists v, answers !! id = Some v /\ JS.trim v <> EmptyString.

(** ** More of what the page shows *)

(** The [checked] attribute of the radio button of option [o] of the mcq
    item [id]. *)
Definition radio_checked (answers : Answers) (id : string) (o : MCQOption) : bool :=
  String.eqb (JS.or_empty (answers !! id)) (code_of (opt_id o)).

(** The text beside that radio button. *)
Definition radio_label (o : MCQOption) : string :=
  JS.toUpperCase (code_of (opt_id o)) +:+ ") " +:+ label o.

(** The badge of a hint on the results view. *)
Definition hint_badge (h : Hint) : string :=
  if ok h then (if hasHint h then "Looks on track" else "Check details")
  else "Not answered".

(** The tip under a hint, when there is one. *)
Definition hint_tip (h : Hint) : option string :=
  if ok h && negb (hasHint h) && (0 <? length (hint_keywords h))
  then Some ("Tip: Try including one of these ideas: " +:+ JS.join ", " (hint_keywords h))
  else None.

(** ** The catalog, item by item *)

Definition option_codes (options : list MCQOption) : list OptionId := map opt_id options.

(** What the page expects of an item: the three options a, b, c in this
    order for an mcq item, at least one accepted answer and a letter or a
    digit in each for a text item, a letter or a digit in every keyword of
    a short item. *)
Definition item_well_formed (it : SectionItem) : bool :=
  match item it with
  | MCQItem _ options _ => bool_decide (option_codes options = [opt_a; opt_b; opt_c])
  | TextAutoItem _ acceptedAnswers =>
      negb (Nat.eqb (length acceptedAnswers) 0) &&
      forallb (fun c => negb (no_alnum c)) acceptedAnswers
  | ShortItem _ keywords => forallb (fun k => negb (no_alnum k)) (default [] keywords)
  | WritingItem _ => true
  end.

Definition test_well_formed (T : Test) : bool :=
  bool_decide (NoDup (map (fun it => item_id (item it)) (allItems T))) &&
  forallb item_well_formed (allItems T) &&
  Nat.eqb (count (is_type writing) (allItems T)) 1.

(** ** The claims in their own words *)

(** The definitions of this part do not go through [allItems] and the
    other derived values of the page: they read the sections and the items
    of a test, the answer map and the characters of a string directly, and
    the theorems compare the page with them. *)

(** *** Item ids and inherited properties *)

(** The page reads [answers[id]] on a plain object, which also finds the
    properties every object inherits.  The model reads a finite map, which
    is the same for every id that is not one of these names. *)
Definition inherited_keys : list string :=
  [ "constructor"; "toString"; "toLocaleString"; "valueOf"; "hasOwnProperty";
    "isPrototypeOf"; "propertyIsEnumerable"; "__proto__"; "__defineGetter__";
    "__defineSetter__"; "__lookupGetter__"; "__lookupSetter__" ].

Definition plain_id (id : string) : bool :=
  negb (existsb (String.eqb id) inherited_keys).

(** No item id of the test is the name of an inherited property. *)
Definition plain_ids (T : Test) : bool :=
  forallb (fun it => plain_id (item_id it)) (flat_map items (sections T)).

(** *** Completion *)

(** The stored answer of the item is not empty: for an mcq item a stored
    string other than the empty one, for the other types a stored string
    that is not made of white space only. *)
Definition answered (answers : Answers) (it : Item) : bool :=
  match answers !! item_id it with
  | None => false
  | Some a =>
      match item_type it with
      | mcq => negb (String.eqb a EmptyString)
      | _ => negb (all_space a)
      end
  end.

(** *** Auto-score *)

(** The stored answer, a missing one read as the empty string. *)
Definition answer_or_empty (answers : Answers) (id : string) : string :=
  match answers !! id with
  | Some a => a
  | None => EmptyString
  end.

(** An mcq item whose stored code is its answer. *)
Definition item_mcq_correct (answers : Answers) (it : Item) : bool :=
  match it with
  | MCQItem base _ answer => String.eqb (answer_or_empty answers (it_id base)) (code_of answer)
  | _ => false
  end.

(** A text item whose stored answer is accepted. *)
Definition item_text_correct (answers : Answers) (it : Item) : bool :=
  match it with
  | TextAutoItem base acceptedAnswers =>
      equalsAny (answer_or_empty answers (it_id base)) (Some acceptedAnswers)
  | _ => false
  end.

(** *** Hints *)

(** The hint of a short item; the other items have none. *)
Definition item_hint (answers : Answers) (it : Item) : option Hint :=
  match it with
  | ShortItem base keywords => Some (shortHint answers base keywords)
  | _ => None
  end.

(** *** The export text *)

(** The rendered answer of an item: the dash when no answer or a
    white-space-only answer is stored; otherwise, for an mcq item, the
    capital code, a closing bracket and the label of the option that bears
    the stored code, and for the other types the stored string.  When an
    mcq item stores a string that is the code of none of its options there
    is no option label to render, and the result is [None]. *)
Definition claim_export_answer (answers : Answers) (it : Item) : option string :=
  let a := answer_or_empty answers (item_id it) in
  if all_space a then Some dash
  else match it with
       | MCQItem _ options _ =>
           (fun o => JS.toUpperCase a +:+ ") " +:+ label o) <$>
             List.find (fun o => String.eqb (code_of (opt_id o)) a) options
       | _ => Some a
       end.

(** The block of an item: the line of the section name, the bullet and the
    prompt, then the line of the answer. *)
Definition claim_block (answers : Answers) (s : Section_) (it : Item) : option string :=
  (fun out => name s +:+ " " +:+ bullet +:+ " " +:+ item_prompt it +:+ JS.newline +:+
              "Answer: " +:+ out) <$> claim_export_answer answers it.

(** The items of a test in its order, each with its section. *)
Definition test_order (T : Test) : list (Section_ * Item) :=
  flat_map (fun s => map (fun it => (s, it)) (items s)) (sections T).

(** Blocks with one blank line between them. *)
Fixpoint blank_line_between (blocks : list string) : string :=
  match blocks with
  | [] => EmptyString
  | [b] => b
  | b :: rest => b +:+ JS.newline +:+ JS.newline +:+ blank_line_between rest
  end.

Definition claim_exportText (T : Test) (answers : Answers) : option string :=
  blank_line_between <$> mapM (fun p => claim_block answers p.1 p.2) (test_order T).

(** What is stored for an mcq item of the test is the code of one of its
    options: the answer maps the radio buttons can produce. *)
Definition stores_option_codes (T : Test) (answers : Answers) : Prop :=
  forall s base options answer v,
    s ∈ sections T -> MCQItem base options answer ∈ items s ->
    answers !! it_id base = Some v ->
    exists o, o ∈ options /\ v = code_of (opt_id o).

(** *** [normalize] by words *)

(** The lower-case form of a letter a-z or A-Z, a digit as it is, and
    nothing for every other character. *)
Definition spec_letter_or_digit (c : ascii) : option ascii :=
  let n := nat_of_ascii c in
  if ((48 <=? n) && (n <=? 57)) || ((97 <=? n) && (n <=? 122)) then Some c
  else if (65 <=? n) && (n <=? 90) then Some (ascii_of_nat (n + 32))
  else None.

Definition spec_push_word (w : string) (ws : list string) : list string :=
  match w with
  | EmptyString => ws
  | String _ _ => w :: ws
  end.

(** One scan from the right end: the word that begins at the head of the
    string, empty when the head is no letter and no digit, and the words
    after it. *)
Fixpoint spec_scan (s : string) : string * list string :=
  match s with
  | EmptyString => (EmptyString, [])
  | String c s' =>
      let (w, ws) := spec_scan s' in
      match spec_letter_or_digit c with
      | Some l => (String l w, ws)
      | None => (EmptyString, spec_push_word w ws)
      end
  end.

(** The words of a string: its maximal runs of letters and digits, in
    lower case. *)
Definition spec_words (s : string) : list string :=
  let (w, ws) := spec_scan s in spec_push_word w ws.

(** The words with one space between them. *)
Fixpoint spec_unwords (ws : list string) : string :=
  match ws with
  | [] => EmptyString
  | [w] => w
  | w :: rest => w +:+ " " +:+ spec_unwords rest
  end.

(** * Properties *)

(** ** Characters *)

Module CharFacts.

Ltac by_cases c := destruct c as [[] [] [] [] [] [] [] []]; vm_compute; try reflexivity; try discriminate; auto.

Lemma alnum_not_space c : JS.is_lower_alnum c = true -> JS.is_space c = false.
Proof. by_cases c. Qed.

Lemma alnum_lower c : JS.is_lower_alnum c = true -> JS.lower_char c = c.
Proof. by_cases c. Qed.

Lemma space_eqb_true c : Ascii.eqb c JS.space = true -> c = JS.space.
Proof. intros H. now apply Ascii.eqb_eq. Qed.

Lemma not_space_eqb c : JS.is_space c = false -> Ascii.eqb c JS.space = false.
Proof. by_cases c. Qed.

Lemma space_is_space : JS.is_space JS.space = true.
Proof. reflexivity. Qed.

End CharFacts.

(** ** The stages of [normalize] *)

Lemma trimEnd_idempotent s : JS.trimEnd (JS.trimEnd s) = JS.trimEnd s.
Proof.
  induction s as [|c s IH]; [reflexivity|].
  simpl. destruct (JS.is_space c && JS.is_empty (JS.trimEnd s)) eqn:E; [reflexivity|].
  simpl. rewrite IH, E. reflexivity.
Qed.

Lemma single_spaced_weaken b s :
  single_spaced true s = true -> single_spaced b s = true.
Proof.
  destruct s as [|c s]; [reflexivity|]. simpl.
  destruct (Ascii.eqb c JS.space); [discriminate|]. auto.
Qed.

Lemma replace_space_runs_single_spaced s :
  forall b, single_spaced b (JS.replace_space_runs_from b (JS.replace_non_alnum s)) = true.
Proof.
  induction s as [|c s IH]; intros b; [reflexivity|].
  unfold JS.replace_non_alnum in *. simpl.
  destruct (JS.is_lower_alnum c) eqn:Ha; simpl.
  - rewrite (CharFacts.alnum_not_space _ Ha). simpl.
    rewrite (CharFacts.not_space_eqb _ (CharFacts.alnum_not_space _ Ha)), Ha.
    apply IH.
  - destruct (JS.is_space c) eqn:Hs.
    + rewrite Hs. destruct b; simpl; [apply IH|]. apply (IH true).
    + rewrite CharFacts.space_is_space. destruct b; simpl; [apply IH|]. apply (IH true).
Qed.

Lemma trimStart_single_spaced s :
  forall b, single_spaced b s = true -> single_spaced true (JS.trimStart s) = true.
Proof.
  induction s as [|c s IH]; intros b H; [reflexivity|].
  simpl in *. destruct (Ascii.eqb c JS.space) eqn:E.
  - apply CharFacts.space_eqb_true in E. subst c. rewrite CharFacts.space_is_space.
    apply andb_true_iff in H as [_ H]. eapply IH, H.
  - apply andb_true_iff in H as [Ha H].
    rewrite (CharFacts.alnum_not_space _ Ha). simpl. rewrite E, Ha. exact H.
Qed.

Lemma trimEnd_single_spaced s :
  forall b, single_spaced b s = true -> single_spaced b (JS.trimEnd s) = true.
Proof.
  induction s as [|c s IH]; intros b H; [reflexivity|].
  simpl in *. destruct (JS.is_space c && JS.is_empty (JS.trimEnd s)); [reflexivity|].
  simpl. destruct (Ascii.eqb c JS.space).
  - apply andb_true_iff in H as [Hb H]. rewrite Hb. simpl. apply IH, H.
  - apply andb_true_iff in H as [Ha H]. rewrite Ha. simpl. apply IH, H.
Qed.

Lemma single_spaced_lower s :
  forall b, single_spaced b s = true -> JS.toLowerCase s = s.
Proof.
  induction s as [|c s IH]; intros b H; [reflexivity|].
  simpl in *. destruct (Ascii.eqb c JS.space) eqn:E.
  - apply CharFacts.space_eqb_true in E. subst c.
    apply andb_true_iff in H as [_ H]. unfold JS.toLowerCase in *. simpl.
    f_equal. eapply IH, H.
  - apply andb_true_iff in H as [Ha H]. unfold JS.toLowerCase in *. simpl.
    rewrite (CharFacts.alnum_lower _ Ha). f_equal. eapply IH, H.
Qed.

Lemma single_spaced_replace_non_alnum s :
  forall b, single_spaced b s = true -> JS.replace_non_alnum s = s.
Proof.
  induction s as [|c s IH]; intros b H; [reflexivity|].
  simpl in *. unfold JS.replace_non_alnum in *. simpl.
  destruct (Ascii.eqb c JS.space) eqn:E.
  - apply CharFacts.space_eqb_true in E. subst c.
    apply andb_true_iff in H as [_ H]. f_equal. eapply IH, H.
  - apply andb_true_iff in H as [Ha H]. rewrite Ha. simpl. f_equal. eapply IH, H.
Qed.

Lemma single_spaced_replace_space_runs s :
  forall b, single_spaced b s = true -> JS.replace_space_runs_from b s = s.
Proof.
  induction s as [|c s IH]; intros b H; [reflexivity|].
  simpl in *. destruct (Ascii.eqb c JS.space) eqn:E.
  - apply CharFacts.space_eqb_true in E. subst c. rewrite CharFacts.space_is_space.
    apply andb_true_iff in H as [Hb H]. destruct b; [discriminate|].
    f_equal. apply IH, H.
  - apply andb_true_iff in H as [Ha H].
    rewrite (CharFacts.alnum_not_space _ Ha). f_equal. apply IH, H.
Qed.

Lemma single_spaced_trimStart s :
  single_spaced true s = true -> JS.trimStart s = s.
Proof.
  destruct s as [|c s]; [reflexivity|]. simpl.
  destruct (Ascii.eqb c JS.space); [discriminate|].
  intros H. apply andb_true_iff in H as [Ha _].
  now rewrite (CharFacts.alnum_not_space _ Ha).
Qed.

Lemma is_normal_spec s :
  is_normal s = true <-> single_spaced true s = true /\ JS.trimEnd s = s.
Proof.
  unfold is_normal. rewrite andb_true_iff, String.eqb_eq. reflexivity.
Qed.

Lemma normalize_is_normal s : is_normal (normalize s) = true.
Proof.
  apply is_normal_spec. unfold normalize, JS.trim, JS.replace_space_runs. split.
  - eapply trimEnd_single_spaced, trimStart_single_spaced,
      replace_space_runs_single_spaced.
  - apply trimEnd_idempotent.
Qed.

Lemma normalize_fixes_normal t : is_normal t = true -> normalize (Some t) = t.
Proof.
  intros [H1 H2]%is_normal_spec.
  unfold normalize, JS.trim, JS.replace_space_runs. simpl.
  rewrite (single_spaced_lower _ _ H1), (single_spaced_replace_non_alnum _ _ H1).
  rewrite (single_spaced_replace_space_runs _ _ (single_spaced_weaken false _ H1)).
  rewrite (single_spaced_trimStart _ H1). exact H2.
Qed.

(** ** Lists *)

Lemma count_cons {A} (p : A -> bool) x l :
  count p (x :: l) = (if p x then 1 else 0) + count p l.
Proof.
  unfold count. rewrite filter_cons.
  destruct (decide (p x = true)) as [->|H]; [reflexivity|].
  apply not_true_is_false in H. now rewrite H.
Qed.

Lemma count_le_length {A} (p : A -> bool) l : count p l <= length l.
Proof. apply length_filter. Qed.

Lemma forallb_count {A} (p : A -> bool) l :
  forallb p l = true <-> count p l = length l.
Proof.
  induction l as [|x l IH]; [easy|].
  rewrite count_cons. simpl. pose proof (count_le_length p l).
  destruct (p x); simpl; [rewrite IH; lia|]. split; [discriminate|lia].
Qed.

Lemma count_filter {A} (p : A -> bool) (Q : A -> Prop) `{!forall x, Decision (Q x)} l :
  (forall x, p x = true -> Q x) -> count p (filter Q l) = count p l.
Proof.
  intros Hpq. induction l as [|x l IH]; [reflexivity|].
  rewrite filter_cons, (count_cons p x l). destruct (decide (Q x)) as [q|q].
  - now rewrite count_cons, IH.
  - rewrite IH. destruct (p x) eqn:E; [|reflexivity]. destruct q. now apply Hpq.
Qed.

(** ** The derived values *)

Lemma allItems_without_type ty T :
  allItems (without_type ty T) =
  filter (fun it => item_type (item it) <> ty) (allItems T).
Proof.
  unfold allItems, without_type. simpl.
  induction (sections T) as [|s ss IH]; [reflexivity|].
  simpl. rewrite filter_app, IH. f_equal.
  induction (items s) as [|it its IHi]; [reflexivity|].
  simpl. rewrite !filter_cons. simpl.
  destruct (decide (item_type it <> ty)); simpl; now rewrite IHi.
Qed.

Lemma autoScore_fold answers l : forall n,
  fold_left (autoScore_step answers) (filter (fun it => is_auto_scored it = true) l) n =
  n + count (mcq_correct answers) l + count (text_correct answers) l.
Proof.
  induction l as [|it l IH]; intros n; [unfold count; simpl; lia|].
  rewrite filter_cons, !count_cons.
  unfold is_auto_scored, mcq_correct, text_correct, autoScore_step, stored in *.
  destruct (item it) eqn:E; simpl; rewrite ?E; simpl; rewrite IH;
    try match goal with |- context [if ?b then _ else _] => destruct b end; lia.
Qed.

Lemma autoScore_counts T answers :
  autoScore T answers =
  count (mcq_correct answers) (allItems T) + count (text_correct answers) (allItems T).
Proof. unfold autoScore, autoScoredItems. now rewrite autoScore_fold. Qed.

Lemma correct_ext a1 a2 :
  (forall id, JS.or_empty (a1 !! id) = JS.or_empty (a2 !! id)) ->
  forall it, mcq_correct a1 it = mcq_correct a2 it /\ text_correct a1 it = text_correct a2 it.
Proof.
  intros H it. unfold mcq_correct, text_correct, stored. rewrite H. auto.
Qed.

Lemma count_ext {A} (p q : A -> bool) l : (forall x, p x = q x) -> count p l = count q l.
Proof.
  intros H. induction l as [|x l IH]; [reflexivity|]. now rewrite !count_cons, H, IH.
Qed.

Lemma autoScore_ext T a1 a2 :
  (forall id, JS.or_empty (a1 !! id) = JS.or_empty (a2 !! id)) ->
  autoScore T a1 = autoScore T a2.
Proof.
  intros H. rewrite !autoScore_counts. f_equal; apply count_ext; intros it;
    now destruct (correct_ext a1 a2 H it).
Qed.

Lemma autoScore_without_type ty T answers :
  ty = short \/ ty = writing ->
  autoScore (without_type ty T) answers = autoScore T answers.
Proof.
  intros Hty. rewrite !autoScore_counts, allItems_without_type.
  f_equal; apply count_filter; intros it; unfold mcq_correct, text_correct;
    destruct (item it); simpl; try discriminate; intros _; destruct Hty; subst; discriminate.
Qed.

(** ** What the two replacements and [trim] do *)

Lemma replace_non_alnum_get s : forall n,
  String.get n (JS.replace_non_alnum s) =
  (fun c => if JS.is_lower_alnum c || JS.is_space c then c else JS.space) <$> String.get n s.
Proof.
  induction s as [|c s IH]; intros n; [reflexivity|].
  destruct n; [reflexivity|]. apply IH.
Qed.

Lemma replace_non_alnum_length s :
  String.length (JS.replace_non_alnum s) = String.length s.
Proof. induction s as [|c s IH]; [reflexivity|]. simpl. now rewrite <- IH. Qed.

Lemma runs_skip_word w t : forall b,
  no_space w = true ->
  JS.replace_space_runs_from b (w +:+ t) =
  w +:+ JS.replace_space_runs_from (JS.is_empty w && b) t.
Proof.
  induction w as [|c w IH]; intros b H; [reflexivity|].
  simpl in *. apply andb_true_iff in H as [Hc Hw]. apply negb_true_iff in Hc.
  rewrite Hc, (IH false Hw). now rewrite andb_false_r.
Qed.

Lemma runs_skip_spaces r t :
  all_space r = true ->
  JS.replace_space_runs_from true (r +:+ t) = JS.replace_space_runs_from true t.
Proof.
  induction r as [|c r IH]; intros H; [reflexivity|].
  simpl in *. apply andb_true_iff in H as [Hc Hr]. rewrite Hc. now apply IH.
Qed.

Lemma runs_after_space t :
  no_leading_space t = true ->
  JS.replace_space_runs_from true t = JS.replace_space_runs_from false t.
Proof.
  destruct t as [|c t]; [reflexivity|]. simpl. intros H.
  apply negb_true_iff in H. now rewrite H.
Qed.

(** A run of white space between a word and what follows becomes one
    space, and the word stays as it is. *)
Lemma replace_space_runs_run w r t :
  no_space w = true -> all_space r = true -> r <> EmptyString ->
  no_leading_space t = true ->
  JS.replace_space_runs (w +:+ r +:+ t) =
  w +:+ String JS.space (JS.replace_space_runs t).
Proof.
  intros Hw Hr Hne Ht. unfold JS.replace_space_runs.
  rewrite (runs_skip_word w _ false Hw), andb_false_r. f_equal.
  destruct r as [|c r]; [congruence|]. simpl in *.
  apply andb_true_iff in Hr as [Hc Hr]. rewrite Hc. f_equal.
  rewrite (runs_skip_spaces r t Hr). now apply runs_after_space.
Qed.

Lemma append_empty_r s : s +:+ EmptyString = s.
Proof.
  induction s as [|c s IH]; [reflexivity|].
  change (String c (s +:+ EmptyString) = String c s). now rewrite IH.
Qed.

Lemma replace_space_runs_word w :
  no_space w = true -> JS.replace_space_runs w = w.
Proof.
  intros Hw. unfold JS.replace_space_runs.
  pose proof (runs_skip_word w EmptyString false Hw) as H.
  now rewrite !append_empty_r in H.
Qed.

Lemma trimEnd_all_space r : all_space r = true -> JS.trimEnd r = EmptyString.
Proof.
  induction r as [|c r IH]; intros H; [reflexivity|]. simpl in *.
  apply andb_true_iff in H as [Hc Hr]. now rewrite Hc, (IH Hr).
Qed.

Lemma trimStart_all_space r : all_space r = true -> JS.trimStart r = EmptyString.
Proof.
  induction r as [|c r IH]; intros H; [reflexivity|]. simpl in *.
  apply andb_true_iff in H as [Hc Hr]. rewrite Hc. now apply IH.
Qed.

Lemma trimStart_spaces l t :
  all_space l = true -> JS.trimStart (l +:+ t) = JS.trimStart t.
Proof.
  induction l as [|c l IH]; intros H; [reflexivity|].
  simpl in *. apply andb_true_iff in H as [Hc Hl]. rewrite Hc. now apply IH.
Qed.

Lemma trimEnd_spaces m r :
  all_space r = true -> JS.trimEnd (m +:+ r) = JS.trimEnd m.
Proof.
  intros Hr. induction m as [|c m IH]; simpl.
  - now apply trimEnd_all_space.
  - now rewrite IH.
Qed.

(** [trim] takes the white space off both ends and nothing else. *)
Lemma trim_spec l m r :
  all_space l = true -> all_space r = true ->
  no_leading_space m = true -> JS.trimEnd m = m ->
  JS.trim (l +:+ m +:+ r) = m.
Proof.
  intros Hl Hr Hm Hend. unfold JS.trim. rewrite (trimStart_spaces l _ Hl).
  destruct m as [|c m].
  - change (EmptyString +:+ r) with r. now rewrite (trimStart_all_space r Hr).
  - simpl in Hm. apply negb_true_iff in Hm.
    change (String c m +:+ r) with (String c (m +:+ r)).
    cbn [JS.trimStart]. rewrite Hm.
    change (String c (m +:+ r)) with (String c m +:+ r).
    now rewrite (trimEnd_spaces _ r Hr).
Qed.

Example trim_examples :
  JS.trim "   two words  " = "two words" /\ JS.trim "    " = EmptyString /\
  JS.replace_space_runs "a   b  c " = "a b c ".
Proof. vm_compute. auto. Qed.

(** ** Substrings and keywords *)

Lemma startsWith_iff s p : JS.startsWith s p = true <-> exists r, s = p +:+ r.
Proof.
  revert s. induction p as [|a p IH]; intros s; simpl.
  - split; [intros _; now exists s | reflexivity].
  - destruct s as [|b s].
    + split; [discriminate | intros [r Hr]; discriminate].
    + rewrite andb_true_iff, Ascii.eqb_eq, IH. split.
      * intros [-> [r ->]]. now exists r.
      * intros [r Hr]. change (String a p +:+ r) with (String a (p +:+ r)) in Hr.
        injection Hr as -> ->. split; [reflexivity | now exists r].
Qed.

(** [includes] is true exactly when the second string occurs in the first. *)
Lemma includes_iff s p : JS.includes s p = true <-> exists l r, s = l +:+ p +:+ r.
Proof.
  induction s as [|c s IH].
  - simpl. rewrite orb_false_r, startsWith_iff. split.
    + intros [r Hr]. now exists EmptyString, r.
    + intros (l & r & H). destruct l; [now exists r | discriminate].
  - cbn [JS.includes]. rewrite orb_true_iff, startsWith_iff, IH. split.
    + intros [[r Hr]|(l & r & ->)]; [now exists EmptyString, r | now exists (String c l), r].
    + intros (l & r & H). destruct l as [|c' l]; [left; now exists r|right].
      change (String c' l +:+ p +:+ r) with (String c' (l +:+ p +:+ r)) in H.
      injection H as -> ->. now exists l, r.
Qed.

Lemma containsAnyKeyword_iff text keywords :
  containsAnyKeyword text (Some keywords) = true <->
  exists k, k ∈ keywords /\ JS.includes (normalize (Some text)) (normalize (Some k)) = true.
Proof.
  unfold containsAnyKeyword. simpl. rewrite existsb_exists.
  split; intros (k & Hk & H); exists k; (split; [now apply list_elem_of_In | exact H]).
Qed.

Lemma containsAnyKeyword_empty text :
  containsAnyKeyword text (Some []) = false /\ containsAnyKeyword text None = false.
Proof. split; reflexivity. Qed.

(** ** Completion *)

Lemma attempted_spec answers it :
  attempted answers it = true <->
  match item_type (item it) with
  | mcq => exists code, answers !! item_id (item it) = Some code /\ code <> EmptyString
  | _ => exists s, answers !! item_id (item it) = Some s /\ JS.trim s <> EmptyString
  end.
Proof.
  unfold attempted, JS.truthy.
  destruct (item_type (item it)); destruct (answers !! item_id (item it)) as [s|];
    try (split; [discriminate | intros (? & ? & ?); discriminate]).
  all: split;
    [ intros H; eexists; split; [reflexivity|]; intros E; rewrite E in H; discriminate
    | intros (? & [= <-] & H) ].
  - now destruct s.
  - now destruct (JS.trim s).
  - now destruct (JS.trim s).
  - now destruct (JS.trim s).
Qed.

Lemma isComplete_attemptedCount T answers :
  isComplete T answers = true <-> attemptedCount T answers = length (allItems T).
Proof. apply (forallb_count (attempted answers)). Qed.

Lemma finished_only_by_finish catalog s e s' :
  step catalog s e s' -> finished s = false -> finished s' = true -> e = ClickFinish.
Proof.
  intros [e' He] Hf Hf'. destruct e'; simpl in Hf'; try congruence; reflexivity.
Qed.


(** With every item of the third test answered but the last one, the Finish
    button is not enabled; with the last one answered it is. *)
Example finish_needs_every_answer :
  let s := {| selectedTestKey := day2; tab := test;
              answers := delete "d2_w1" answers_day2_all;
              selfScoreWriting := None; finished := false |} in
  attemptedCount TEST_day2 (answers s) = 6 /\
  length (allItems TEST_day2) = 7 /\
  enabled TESTS s ClickFinish = false /\
  enabled TESTS (setAnswer "d2_w1" "I read books." s) ClickFinish = true.
Proof. vm_compute. auto. Qed.

(** ** Auto-score *)


(** Scenario A and B of the specification, on the third test. *)
Example autoScore_day2 :
  autoScore TEST_day2 (<["d2_1" := "b"]> ∅) = 1 /\
  autoScore TEST_day2 (<["d2_1" := "a"]> ∅) = 0 /\
  autoScore TEST_day2 (<["d2_s1" := "TOM went  to school!"]> ∅) = 1 /\
  autoScore TEST_day2 answers_day2_all = 4.
Proof. vm_compute. auto. Qed.

(** ** [normalize] *)


Example normalize_examples :
  normalize (Some "Emma's Day!") = "emma s day" /\
  normalize (Some "emma s day") = "emma s day" /\
  normalize (Some "  Tom   went to school. ") = "tom went to school".
Proof. vm_compute. auto. Qed.

(** ** [equalsAny] *)

Lemma equalsAny_iff text candidates :
  equalsAny text (Some candidates) = true <->
  exists c, c ∈ candidates /\ normalize (Some text) = normalize (Some c).
Proof.
  unfold equalsAny, JS.array_includes. simpl. rewrite existsb_exists. split.
  - intros (n & Hin & Heq). apply in_map_iff in Hin as (c & <- & Hc).
    exists c. split; [now apply list_elem_of_In|]. now apply String.eqb_eq.
  - intros (c & Hc & Heq). exists (normalize (Some c)). split.
    + apply in_map_iff. exists c. split; [reflexivity|]. now apply list_elem_of_In.
    + now apply String.eqb_eq.
Qed.

Lemma equalsAny_same_elements text l1 l2 :
  (forall c, c ∈ l1 <-> c ∈ l2) ->
  equalsAny text (Some l1) = equalsAny text (Some l2).
Proof.
  intros H. apply eq_true_iff_eq. rewrite !equalsAny_iff.
  split; intros (c & Hc & Heq); exists c; (split; [now apply H | exact Heq]).
Qed.

(** C4.  [equalsAny] is true exactly when the normalized text is the
    normalized form of one of the candidates; so it is true on the one
    candidate [s2] whenever [s] and [s2] normalize alike, it gives the same
    result on two lists with the same elements, whatever their order and
    however often an element is repeated, and it is false when the list is
    empty or left out. *)
Theorem equalsAny_spec :
  (forall text candidates,
      equalsAny text (Some candidates) = true <->
      exists c, c ∈ candidates /\ normalize (Some text) = normalize (Some c)) /\
  (forall s s2,
      normalize (Some s) = normalize (Some s2) -> equalsAny s (Some [s2]) = true) /\
  (forall text l1 l2,
      (forall c, c ∈ l1 <-> c ∈ l2) ->
      equalsAny text (Some l1) = equalsAny text (Some l2)) /\
  (forall text l1 l2,
      Permutation l1 l2 -> equalsAny text (Some l1) = equalsAny text (Some l2)) /\
  (forall text c l,
      c ∈ l -> equalsAny text (Some (c :: l)) = equalsAny text (Some l)) /\
  (forall text, equalsAny text (Some []) = false /\ equalsAny text None = false).
Proof.
  split; [exact equalsAny_iff|]. split; [|split; [exact equalsAny_same_elements|split; [|split]]].
  - intros s s2 H. apply equalsAny_iff. exists s2. split; [apply list_elem_of_here | exact H].
  - intros text l1 l2 HP. apply equalsAny_same_elements. intros c.
    split; intros Hc; [now rewrite <- HP | now rewrite HP].
  - intros text c l Hc. apply equalsAny_same_elements. intros c'.
    rewrite elem_of_cons. split; [intros [->|H]; assumption | auto].
  - intros text. split; reflexivity.
Qed.

Example equalsAny_examples :
  equalsAny "tom went to school." (Some ["Tom went to school."]) = true /\
  equalsAny "TOM  WENT, to school" (Some ["x"; "Tom went to school."; "x"]) = true /\
  equalsAny "Tom goes to school." (Some ["Tom went to school."]) = false.
Proof. vm_compute. auto. Qed.

(** ** Points *)

Lemma count_auto_scored l :
  count is_auto_scored l = count (is_type mcq) l + count (is_type text) l.
Proof.
  induction l as [|it l IH]; [reflexivity|]. rewrite !count_cons, IH.
  unfold is_auto_scored, is_type. destruct (item_type (item it)); simpl; lia.
Qed.

Lemma allItems_with_writing_section T sid sname bases :
  allItems (with_writing_section T sid sname bases) =
  allItems T ++
  map (fun b => {| item := WritingItem b; sectionName := sname |}) bases.
Proof.
  unfold allItems, with_writing_section. simpl.
  rewrite flat_map_app. simpl. rewrite app_nil_r. f_equal.
  now rewrite map_map.
Qed.

Lemma count_app {A} (p : A -> bool) l1 l2 : count p (l1 ++ l2) = count p l1 + count p l2.
Proof. unfold count. now rewrite filter_app, length_app. Qed.

Lemma count_none {A} (p : A -> bool) l : (forall x, x ∈ l -> p x = false) -> count p l = 0.
Proof.
  induction l as [|x l IH]; intros H; [reflexivity|].
  rewrite count_cons, (H x), IH; [reflexivity| |apply list_elem_of_here].
  intros y Hy. apply H. now apply list_elem_of_further.
Qed.


(** Scenario E of the specification on the third test: four auto-scored
    items, all answered correctly, and a total of five. *)
Example points_day2 :
  totalPoints TEST_day2 = 5 /\
  finalScore TEST_day2 answers_day2_all (Some 0) = 4 /\
  finalScore TEST_day2 answers_day2_all (Some 1) = 5 /\
  finalScore TEST_day2 answers_day2_all None = 4.
Proof. vm_compute. auto. Qed.

(** ** Hints *)

Lemma allItems_set_keywords f T :
  allItems (set_keywords f T) =
  map (fun it => {| item := set_item_keywords f (item it); sectionName := sectionName it |})
      (allItems T).
Proof.
  unfold allItems, set_keywords. simpl.
  induction (sections T) as [|s ss IH]; [reflexivity|].
  simpl. rewrite map_app, IH. f_equal. now rewrite !map_map.
Qed.

Lemma autoScore_set_keywords f T answers :
  autoScore (set_keywords f T) answers = autoScore T answers.
Proof.
  rewrite !autoScore_counts, allItems_set_keywords.
  induction (allItems T) as [|it l IH]; [reflexivity|].
  simpl. rewrite !count_cons.
  assert (mcq_correct answers {| item := set_item_keywords f (item it);
                                 sectionName := sectionName it |} = mcq_correct answers it /\
          text_correct answers {| item := set_item_keywords f (item it);
                                  sectionName := sectionName it |} = text_correct answers it)
    as [-> ->] by (unfold mcq_correct, text_correct, stored; destruct (item it); auto).
  lia.
Qed.

Lemma autoScore_insert_other T answers id v :
  (forall it, it ∈ allItems T -> is_auto_scored it = true -> item_id (item it) <> id) ->
  autoScore T (<[id := v]> answers) = autoScore T answers.
Proof.
  intros H. rewrite !autoScore_counts. induction (allItems T) as [|it l IH]; [reflexivity|].
  rewrite !count_cons.
  assert (Hl : count (mcq_correct (<[id:=v]> answers)) l + count (text_correct (<[id:=v]> answers)) l
               = count (mcq_correct answers) l + count (text_correct answers) l).
  { apply IH. intros it' Hin. apply H. now apply list_elem_of_further. }
  specialize (H it (list_elem_of_here _ _)).
  assert (mcq_correct (<[id:=v]> answers) it = mcq_correct answers it /\
          text_correct (<[id:=v]> answers) it = text_correct answers it) as [-> ->].
  { unfold mcq_correct, text_correct, stored, is_auto_scored in *.
    destruct (item it); simpl in *; auto;
      rewrite lookup_insert_ne; auto; intros E; now apply H. }
  lia.
Qed.

Lemma shortHints_elem T answers h :
  h ∈ shortHints T answers <->
  exists it base keywords,
    it ∈ allItems T /\ item it = ShortItem base keywords /\
    h = shortHint answers base keywords.
Proof.
  unfold shortHints. rewrite list_elem_of_fmap. split.
  - intros (it & -> & Hit). apply list_elem_of_filter in Hit as [Hs Hit].
    unfold is_short in Hs. destruct (item it) as [| |base keywords|] eqn:E;
      try discriminate.
    exists it, base, keywords. rewrite E. auto.
  - intros (it & base & keywords & Hit & E & ->). exists it. split.
    + now rewrite E.
    + apply list_elem_of_filter. split; [|exact Hit]. unfold is_short. now rewrite E.
Qed.


(** Scenario C of the specification: item r1 of the first test in the
    source, with the keywords nervous and excited. *)
Example shortHint_r1 :
  let base := {| it_id := "r1"; prompt := "How did Emma feel about starting 8th grade?";
                 guidance := Some "Write 1 sentence." |} in
  let kw := Some ["nervous"; "excited"] in
  hasHint (shortHint (<["r1" := "She felt a bit nervous."]> ∅) base kw) = true /\
  hasHint (shortHint (<["r1" := "She felt happy."]> ∅) base kw) = false /\
  ok (shortHint (<["r1" := "She felt happy."]> ∅) base kw) = true /\
  ok (shortHint ∅ base kw) = false /\
  hasHint (shortHint ∅ base None) = true.
Proof. vm_compute. auto. Qed.

(** ** Reset and test selection *)

(** C8.  [onChangeTest] and [resetAllToReading] both leave an empty answer
    map, no writing self-score, [finished] false and the reading view; the
    first sets the selected test to the key it is given, the second keeps
    the selected test.  Afterwards no id has an answer. *)
Theorem reset_and_select_spec :
  (forall key s,
      let s' := onChangeTest key s in
      selectedTestKey s' = key /\ answers s' = ∅ /\ selfScoreWriting s' = None /\
      finished s' = false /\ tab s' = read /\
      dom (answers s') = ∅ /\ forall id, answers s' !! id = None) /\
  (forall s,
      let s' := resetAllToReading s in
      selectedTestKey s' = selectedTestKey s /\ answers s' = ∅ /\
      selfScoreWriting s' = None /\ finished s' = false /\ tab s' = read /\
      dom (answers s') = ∅ /\ forall id, answers s' !! id = None) /\
  (forall key s, handle (SelectTest key) s = onChangeTest key s) /\
  (forall s,
      handle ClickReset s = resetAllToReading s /\
      handle ClickStartOver s = resetAllToReading s).
Proof.
  repeat split; simpl; try reflexivity; try apply dom_empty_L.
Qed.

(** ** The session as a transition system *)

Lemma run_reachable catalog events : forall s s',
  reachable catalog s -> run catalog events s = Some s' -> reachable catalog s'.
Proof.
  induction events as [|e events IH]; intros s s' Hs Hrun; simpl in Hrun.
  - now injection Hrun as <-.
  - destruct (enabled catalog s e) eqn:He; [|discriminate].
    eapply IH; [|exact Hrun]. eapply reachable_step; [exact Hs|]. now constructor.
Qed.

Lemma results_only_when_finished catalog s :
  reachable catalog s -> tab s = results -> finished s = true.
Proof.
  induction 1 as [|s e s' Hs IH Hstep]; [discriminate|].
  destruct Hstep as [e He]. destruct e; simpl in *; try discriminate; auto.
Qed.

Lemma in_progress_step catalog s e s' :
  test_in_progress s = true -> step catalog s e s' ->
  e <> ClickFinish -> e <> ClickReset ->
  test_in_progress s' = true /\ selectedTestKey s' = selectedTestKey s.
Proof.
  unfold test_in_progress. intros Hp [e' He] Hf Hr.
  apply andb_true_iff in Hp as [Ht Hu]. apply negb_true_iff in Hu.
  destruct (tab s) eqn:Etab; try discriminate.
  destruct e'; simpl in *; unfold test_in_progress in *;
    rewrite ?Etab, ?Hu in *; simpl in *; try discriminate; try congruence; auto.
Qed.

Lemma in_progress_run catalog events : forall s s',
  test_in_progress s = true -> run catalog events s = Some s' ->
  ClickFinish ∉ events -> ClickReset ∉ events ->
  test_in_progress s' = true /\ selectedTestKey s' = selectedTestKey s.
Proof.
  induction events as [|e events IH]; intros s s' Hp Hrun Hf Hr; simpl in Hrun.
  - injection Hrun as <-. auto.
  - destruct (enabled catalog s e) eqn:He; [|discriminate].
    apply not_elem_of_cons in Hf as [Hf Hf'], Hr as [Hr Hr'].
    destruct (in_progress_step catalog s e (handle e s) Hp) as [Hp' Hk];
      [now constructor | congruence | congruence |].
    destruct (IH _ _ Hp' Hrun Hf' Hr') as [? ?]. split; congruence.
Qed.

(** C5, as it holds.  While the test view is active and the session
    unfinished the Reading button and the test selector are disabled.  A run
    of events from such a state that holds neither a finish nor a reset
    stays in the test view, unfinished, on the same test; an event that
    does bring the reading view back from such a state is a click on Reset.
    After a finish both controls are enabled, and so they are after a
    reset.  In every reachable state the results view goes with
    [finished]. *)
Theorem navigation_guard_spec :
  (forall catalog s,
      test_in_progress s = true ->
      enabled catalog s ClickReading = false /\
      forall key, enabled catalog s (SelectTest key) = false) /\
  (forall catalog s events s',
      test_in_progress s = true ->
      run catalog events s = Some s' ->
      ClickFinish ∉ events -> ClickReset ∉ events ->
      test_in_progress s' = true /\ tab s' <> read /\
      selectedTestKey s' = selectedTestKey s) /\
  (forall catalog s e s',
      test_in_progress s = true -> step catalog s e s' ->
      selectedTestKey s' = selectedTestKey s /\ (tab s' = read -> e = ClickReset)) /\
  (forall catalog s,
      enabled catalog (finish s) ClickReading = true /\
      forall key, enabled catalog (finish s) (SelectTest key) = true) /\
  (forall catalog s,
      enabled catalog (resetAllToReading s) ClickReading = true /\
      forall key, enabled catalog (resetAllToReading s) (SelectTest key) = true) /\
  (forall catalog s,
      reachable catalog s ->
      (tab s = results -> finished s = true) /\
      (enabled catalog s ClickResults = true -> finished s = true)).
Proof.
  split; [|split; [|split; [|split; [|split]]]].
  - intros catalog s Hp. simpl. rewrite Hp. auto.
  - intros catalog s events s' Hp Hrun Hf Hr.
    destruct (in_progress_run catalog events s s' Hp Hrun Hf Hr) as [Hp' Hk].
    repeat split; auto. unfold test_in_progress in Hp'.
    destruct (tab s'); simpl in Hp'; congruence.
  - intros catalog s e s' Hp Hstep.
    destruct (decide (e = ClickFinish)) as [->|Hf].
    { inversion Hstep; subst. simpl. split; [reflexivity | discriminate]. }
    destruct (decide (e = ClickReset)) as [->|Hr].
    { inversion Hstep; subst. simpl. auto. }
    destruct (in_progress_step catalog s e s' Hp Hstep Hf Hr) as [Hp' Hk].
    split; [exact Hk|]. intros Hread. unfold test_in_progress in Hp'.
    rewrite Hread in Hp'. discriminate.
  - intros catalog s. simpl. auto.
  - intros catalog s. simpl. auto.
  - intros catalog s Hs. split; [now apply (results_only_when_finished catalog)|].
    simpl. auto.
Qed.

(** The second part at the third test of the catalog: from the test view
    with one answer chosen, answering further keeps the guard up. *)
Lemma navigation_guard_spec_witness :
  let s := setAnswer "d2_1" "b" (setTab test (onChangeTest day2 initial_session)) in
  let events := [ChooseOption "d2_2" opt_a; TypeAnswer "d2_s1" "Tom went to school.";
                 ClickSelfScore true; ClickTest] in
  let s' := setTab test (setSelfScoreWriting 1
              (setAnswer "d2_s1" "Tom went to school." (setAnswer "d2_2" "a" s))) in
  run TESTS events s = Some s' /\
  test_in_progress s' = true /\ tab s' <> read /\
  selectedTestKey s' = selectedTestKey s.
Proof.
  intros s events s'. split; [reflexivity|].
  apply (proj1 (proj2 navigation_guard_spec) TESTS s events s');
    [reflexivity | reflexivity | |];
    subst events; rewrite !not_elem_of_cons; repeat split; try discriminate;
    apply not_elem_of_nil.
Defined.

(** C5, as the specification words it, fails: in the test view of the
    first test, unfinished, a click on Reset brings the reading view back
    with no finish at all. *)
Lemma blocked_until_finish_fails : ~ blocked_until_finish TESTS.
Proof.
  intros H.
  destruct (H (setTab test initial_session) [ClickReset]
              (resetAllToReading (setTab test initial_session))) as [Hread _].
  - eapply reachable_step; [apply reachable_initial|].
    apply (step_event TESTS initial_session ClickStartTest). reflexivity.
  - reflexivity.
  - reflexivity.
  - rewrite not_elem_of_cons. split; [discriminate | apply not_elem_of_nil].
  - now apply Hread.
Qed.

(** ** Reset *)

(** C10.  Reset is enabled in every state, so in every view and also in the
    test view of an unfinished session; its step empties the answer map and
    shows the reading view.  One click thus discards the answers of a test
    in progress that the guard on the Reading button and on the test
    selector holds back. *)
Theorem reset_always_enabled :
  (forall catalog s, enabled catalog s ClickReset = true) /\
  (forall catalog s,
      let s' := resetAllToReading s in
      step catalog s ClickReset s' /\ answers s' = ∅ /\ tab s' = read /\
      selectedTestKey s' = selectedTestKey s) /\
  (forall catalog s,
      reachable catalog s -> test_in_progress s = true ->
      enabled catalog s ClickReading = false /\
      exists s', step catalog s ClickReset s' /\ reachable catalog s' /\
                 answers s' = ∅ /\ tab s' = read) /\
  (exists s,
      reachable TESTS s /\ test_in_progress s = true /\
      answers s !! "mc1" = Some "b" /\
      enabled TESTS s ClickReading = false /\
      enabled TESTS s ClickReset = true /\
      answers (handle ClickReset s) = ∅ /\ tab (handle ClickReset s) = read).
Proof.
  split; [reflexivity|]. split; [|split].
  - intros catalog s. simpl. split; [|auto].
    apply (step_event catalog s ClickReset). reflexivity.
  - intros catalog s Hs Hp. split; [simpl; now rewrite Hp|].
    exists (resetAllToReading s).
    assert (Hstep : step catalog s ClickReset (resetAllToReading s))
      by (apply (step_event catalog s ClickReset); reflexivity).
    repeat split; auto. eapply reachable_step; eauto.
  - exists (setAnswer "mc1" "b" (setTab test initial_session)).
    split; [|repeat split].
    apply (run_reachable TESTS [ClickStartTest; ChooseOption "mc1" opt_b] initial_session);
      [apply reachable_initial | reflexivity].
Qed.

(** ** The export text *)

Lemma code_of_eqb x y : String.eqb (code_of x) (code_of y) = option_id_eqb x y.
Proof. destruct x, y; reflexivity. Qed.

Lemma find_ext {A} (f g : A -> bool) l : (forall x, f x = g x) -> List.find f l = List.find g l.
Proof.
  intros H. induction l as [|x l IH]; [reflexivity|]. simpl. now rewrite H, IH.
Qed.

Lemma export_answer_other answers it :
  item_type it <> mcq ->
  export_answer answers it =
  if JS.is_empty (JS.trim (JS.or_empty (answers !! item_id it)))
  then dash else JS.or_empty (answers !! item_id it).
Proof.
  intros Hty. unfold export_answer.
  destruct it; simpl in *; try congruence;
    (destruct (answers !! _) as [[|c s]|]; simpl; try reflexivity;
     now destruct (JS.is_empty _)).
Qed.

Lemma export_answer_agrees answers it :
  item_type it <> mcq \/
  JS.or_empty (answers !! item_id it) = EmptyString \/
  JS.trim (JS.or_empty (answers !! item_id it)) <> EmptyString ->
  export_answer answers it = spec_export_answer answers it.
Proof.
  intros H. destruct (decide (item_type it = mcq)) as [Hm|Hm].
  - destruct H as [H|H]; [congruence|].
    destruct it; try discriminate. unfold export_answer, spec_export_answer, item_id in *.
    simpl in *. destruct (answers !! it_id base) as [[|c s]|]; simpl in *; try reflexivity.
    destruct H as [H|H]; [discriminate|].
    destruct (JS.trim (String c s)); [congruence | reflexivity].
  - rewrite export_answer_other by exact Hm. unfold spec_export_answer.
    destruct (JS.is_empty _); [reflexivity|]. now destruct it.
Qed.

Lemma export_answer_mcq_code answers base options answer k o :
  answers !! it_id base = Some (code_of k) ->
  List.find (fun x => option_id_eqb (opt_id x) k) options = Some o ->
  export_answer answers (MCQItem base options answer) =
  capital k +:+ ") " +:+ label o.
Proof.
  intros Ha Hfind. unfold export_answer, item_id, find_label. simpl. rewrite Ha.
  rewrite (find_ext _ (fun x => option_id_eqb (opt_id x) k))
    by (intros x; apply code_of_eqb).
  rewrite Hfind. now destruct k.
Qed.

Lemma flat_map_ext_elem {A B} (f g : A -> list B) l :
  (forall x, x ∈ l -> f x = g x) -> flat_map f l = flat_map g l.
Proof.
  induction l as [|x l IH]; intros H; [reflexivity|]. simpl.
  rewrite (H x) by apply list_elem_of_here. f_equal. apply IH.
  intros y Hy. apply H. now apply list_elem_of_further.
Qed.

Lemma map_ext_elem {A B} (f g : A -> B) l :
  (forall x, x ∈ l -> f x = g x) -> map f l = map g l.
Proof.
  induction l as [|x l IH]; intros H; [reflexivity|]. simpl.
  rewrite (H x) by apply list_elem_of_here. f_equal. apply IH.
  intros y Hy. apply H. now apply list_elem_of_further.
Qed.

Lemma elem_of_allItems T s it :
  s ∈ sections T -> it ∈ items s ->
  {| item := it; sectionName := name s |} ∈ allItems T.
Proof.
  intros Hs Hit. unfold allItems. apply list_elem_of_In, in_flat_map.
  exists s. split; [now apply list_elem_of_In|].
  apply in_map_iff. exists it. split; [reflexivity | now apply list_elem_of_In].
Qed.

Lemma exportText_agrees T answers :
  (forall it, it ∈ allItems T -> item_type (item it) = mcq ->
     JS.or_empty (answers !! item_id (item it)) = EmptyString \/
     JS.trim (JS.or_empty (answers !! item_id (item it))) <> EmptyString) ->
  exportText T answers = spec_exportText T answers.
Proof.
  intros H. unfold exportText, spec_exportText. f_equal.
  apply flat_map_ext_elem. intros s Hs. apply map_ext_elem. intros it Hit.
  unfold export_block. do 7 f_equal. apply export_answer_agrees.
  destruct (decide (item_type it = mcq)) as [Hm|Hm]; [right|now left].
  apply (H _ (elem_of_allItems T s it Hs Hit) Hm).
Qed.



Example export_day2 :
  export_answer answers_day2_all
    (MCQItem {| it_id := "d2_1"; prompt := "Tom ____ to a secondary school.";
                guidance := None |}
       [{| opt_id := opt_a; label := "go" |}; {| opt_id := opt_b; label := "goes" |};
        {| opt_id := opt_c; label := "went" |}] opt_b) = "B) goes" /\
  export_answer ∅ (WritingItem {| it_id := "w"; prompt := "p"; guidance := None |}) = dash /\
  export_answer (<["w" := "   "]> ∅)
    (WritingItem {| it_id := "w"; prompt := "p"; guidance := None |}) = dash /\
  export_answer (<["w" := " One line. "]> ∅)
    (WritingItem {| it_id := "w"; prompt := "p"; guidance := None |}) = " One line. ".
Proof. vm_compute. auto. Qed.


(** An answer map the page cannot produce: one space stored for an mcq
    item.  The page tests the stored answer of an mcq item for emptiness
    only, so the answer line reads the space, a closing bracket and the
    word undefined. *)
Example export_answer_space :
  let it := MCQItem {| it_id := "d2_1"; prompt := "Tom ____ to a secondary school.";
                       guidance := None |}
              [{| opt_id := opt_a; label := "go" |};
               {| opt_id := opt_b; label := "goes" |};
               {| opt_id := opt_c; label := "went" |}] opt_b in
  export_answer (<["d2_1" := " "]> ∅) it = " ) undefined" /\
  spec_export_answer (<["d2_1" := " "]> ∅) it = dash.
Proof. vm_compute. auto. Qed.

(** ** What the page can store for an mcq item *)

Lemma NoDup_map_inj {A B} (f : A -> B) l x y :
  NoDup (map f l) -> x ∈ l -> y ∈ l -> f x = f y -> x = y.
Proof.
  induction l as [|z l IH]; intros Hnd Hx Hy Hf; [now apply elem_of_nil in Hx|].
  simpl in Hnd. apply NoDup_cons in Hnd as [Hz Hnd].
  apply elem_of_cons in Hx as [->|Hx], Hy as [->|Hy]; auto.
  - destruct Hz. rewrite Hf. apply list_elem_of_fmap. eauto.
  - destruct Hz. rewrite <- Hf. apply list_elem_of_fmap. eauto.
Qed.

Lemma has_radio_true T id value :
  has_radio T id value = true ->
  exists it base options answer o,
    it ∈ allItems T /\ item it = MCQItem base options answer /\
    it_id base = id /\ o ∈ options /\ opt_id o = value.
Proof.
  unfold has_radio. rewrite existsb_exists. intros (it & Hit & H).
  destruct (item it) as [base options answer| | |] eqn:E; try discriminate.
  apply andb_true_iff in H as [Hid Ho]. apply String.eqb_eq in Hid.
  apply existsb_exists in Ho as (o & Ho & Hv).
  exists it, base, options, answer, o. rewrite <- !list_elem_of_In in *.
  repeat split; auto. destruct (opt_id o), value; (reflexivity || discriminate).
Qed.

Lemma has_textarea_true T id :
  has_textarea T id = true ->
  exists it, it ∈ allItems T /\ item_type (item it) <> mcq /\ item_id (item it) = id.
Proof.
  unfold has_textarea. rewrite existsb_exists. intros (it & Hit & H).
  exists it. rewrite <- list_elem_of_In in Hit. split; [exact Hit|].
  destruct (item_type (item it)); try discriminate;
    (split; [discriminate | now apply String.eqb_eq]).
Qed.

Lemma reachable_mcq_answers catalog s :
  unique_ids catalog -> reachable catalog s -> mcq_answers_are_codes catalog s.
Proof.
  intros Huniq. induction 1 as [|s e s' Hs IH [e' He]].
  - intros it base options answer v _ _ Hv. simpl in Hv.
    now rewrite lookup_empty in Hv.
  - unfold mcq_answers_are_codes, TEST in *.
    destruct e'; simpl in *; try exact IH;
      try (intros it base options answer v _ _ Hv; now rewrite lookup_empty in Hv).
    + (* a radio button *)
      apply andb_true_iff in He as [_ He].
      apply has_radio_true in He as (it0 & b0 & opts0 & a0 & o & Hit0 & E0 & Hid & Ho & Hval).
      intros it base options answer v Hit E Hv.
      destruct (decide (id = it_id base)) as [Heq|Hne].
      * rewrite Heq, lookup_insert_eq in Hv. injection Hv as <-.
        assert (it = it0) as ->.
        { apply (NoDup_map_inj (fun it => item_id (item it)) _ _ _
                   (Huniq (selectedTestKey s)) Hit Hit0).
          unfold item_id. rewrite E, E0. simpl. congruence. }
        rewrite E0 in E. injection E as <- <- <-. exists o. now rewrite Hval.
      * rewrite lookup_insert_ne in Hv by exact Hne. eauto.
    + (* a text area *)
      apply andb_true_iff in He as [_ He].
      apply has_textarea_true in He as (it0 & Hit0 & Hty & Hid).
      intros it base options answer v Hit E Hv.
      destruct (decide (id = it_id base)) as [Heq|Hne].
      * assert (it = it0) as ->.
        { apply (NoDup_map_inj (fun it => item_id (item it)) _ _ _
                   (Huniq (selectedTestKey s)) Hit Hit0).
          cbv beta. rewrite Hid, Heq. unfold item_id. now rewrite E. }
        rewrite E in Hty. now destruct Hty.
      * rewrite lookup_insert_ne in Hv by exact Hne. eauto.
Qed.

(** On the states the page can reach, the ids of each test being unique,
    the export text is the one the specification words. *)
Lemma reachable_export_agrees catalog s :
  unique_ids catalog -> reachable catalog s ->
  exportText (TEST catalog s) (answers s) = spec_exportText (TEST catalog s) (answers s).
Proof.
  intros Huniq Hs. apply exportText_agrees. intros it Hit Hm.
  destruct (item it) as [base options answer| | |] eqn:E; try discriminate.
  unfold item_id. simpl.
  destruct (answers s !! it_id base) as [v|] eqn:Hv; [right|now left].
  destruct (reachable_mcq_answers catalog s Huniq Hs it base options answer v Hit E Hv)
    as (o & _ & ->).
  simpl. now destruct (opt_id o).
Qed.

Lemma TESTS_unique_ids : unique_ids TESTS.
Proof.
  intros key. apply (bool_decide_unpack _). destruct key; vm_compute; exact I.
Qed.

(** Every key of the answer map is the id of an item of the selected test. *)
Lemma reachable_answer_keys catalog s :
  reachable catalog s ->
  forall id, is_Some (answers s !! id) ->
  exists it, it ∈ allItems (TEST catalog s) /\ item_id (item it) = id.
Proof.
  induction 1 as [|s e s' Hs IH [e' He]]; intros id' [v Hv].
  - simpl in Hv. now rewrite lookup_empty in Hv.
  - unfold TEST in *.
    destruct e'; simpl in *; try (apply IH; now exists v);
      try (now rewrite lookup_empty in Hv).
    + apply andb_true_iff in He as [_ He].
      destruct (decide (id = id')) as [<-|Hne].
      * apply has_radio_true in He as (it & base & ? & ? & ? & Hit & E & Hid & _).
        exists it. split; [exact Hit|]. unfold item_id. now rewrite E.
      * rewrite lookup_insert_ne in Hv by exact Hne. apply IH. now exists v.
    + apply andb_true_iff in He as [_ He].
      destruct (decide (id = id')) as [<-|Hne].
      * apply has_textarea_true in He as (it & Hit & _ & Hid). now exists it.
      * rewrite lookup_insert_ne in Hv by exact Hne. apply IH. now exists v.
Qed.

(** ** The theorems at inputs of the catalog *)



(** C4 at scenario B of the specification. *)
Lemma equalsAny_spec_witness :
  normalize (Some "tom went to school.") = normalize (Some "Tom went to school.") /\
  equalsAny "tom went to school." (Some ["Tom went to school."]) = true.
Proof.
  assert (H : normalize (Some "tom went to school.") = normalize (Some "Tom went to school."))
    by reflexivity.
  split; [exact H|].
  exact (proj1 (proj2 equalsAny_spec) "tom went to school." "Tom went to school." H).
Defined.


(** C10 at the first test: the test view with one answer chosen. *)
Lemma reset_always_enabled_witness :
  let s := setAnswer "mc1" "b" (setTab test initial_session) in
  reachable TESTS s /\ test_in_progress s = true /\
  enabled TESTS s ClickReading = false /\
  exists s', step TESTS s ClickReset s' /\ reachable TESTS s' /\
             answers s' = ∅ /\ tab s' = read.
Proof.
  intros s.
  assert (Hs : reachable TESTS s).
  { apply (run_reachable TESTS [ClickStartTest; ChooseOption "mc1" opt_b] initial_session);
      [apply reachable_initial | reflexivity]. }
  split; [exact Hs|]. split; [reflexivity|].
  exact (proj1 (proj2 (proj2 reset_always_enabled)) TESTS s Hs eq_refl).
Defined.

(** * Further properties of the code *)

(** ** [normalize]: what it keeps and what it ignores *)

Module ClassFacts.

Lemma space_lower c : JS.is_space c = true -> JS.lower_char c = c.
Proof. CharFacts.by_cases c. Qed.

Lemma staged_alnum c :
  is_alnum_any c = true -> staged c = JS.lower_char c /\ JS.is_space (staged c) = false.
Proof.
  unfold is_alnum_any, staged. intros H. rewrite H. simpl.
  split; [reflexivity | now apply CharFacts.alnum_not_space].
Qed.

Lemma staged_other c : is_alnum_any c = false -> JS.is_space (staged c) = true.
Proof.
  unfold is_alnum_any, staged. intros H. rewrite H. simpl.
  destruct (JS.is_space (JS.lower_char c)) eqn:E; [exact E | reflexivity].
Qed.

Lemma stages_map s :
  JS.replace_non_alnum (JS.toLowerCase s) = JS.map_chars staged s.
Proof.
  unfold JS.replace_non_alnum, JS.toLowerCase.
  induction s as [|c s IH]; [reflexivity|]. simpl. now rewrite IH.
Qed.

End ClassFacts.

Lemma normalize_staged s :
  normalize (Some s) =
  JS.trim (JS.replace_space_runs (JS.map_chars staged s)).
Proof. unfold normalize. simpl. now rewrite ClassFacts.stages_map. Qed.

Lemma runs_same_classes s : forall t b,
  same_classes s t = true ->
  JS.replace_space_runs_from b (JS.map_chars staged s) =
  JS.replace_space_runs_from b (JS.map_chars staged t).
Proof.
  induction s as [|c s IH]; intros [|d t] b H; simpl in H; try discriminate;
    [reflexivity|].
  apply andb_true_iff in H as [Hc Hs]. simpl. unfold same_class in Hc.
  destruct (is_alnum_any c) eqn:Ec.
  - apply Ascii.eqb_eq in Hc.
    assert (Ed : is_alnum_any d = true) by (unfold is_alnum_any in *; congruence).
    destruct (ClassFacts.staged_alnum c Ec) as [E1 E2].
    destruct (ClassFacts.staged_alnum d Ed) as [E3 E4].
    rewrite E2, E4, E1, E3, Hc. f_equal. now apply IH.
  - apply negb_true_iff in Hc.
    rewrite (ClassFacts.staged_other c Ec), (ClassFacts.staged_other d Hc).
    destruct b; [now apply IH | f_equal; now apply IH].
Qed.

Lemma normalize_same_classes s t :
  same_classes s t = true -> normalize (Some s) = normalize (Some t).
Proof.
  intros H. rewrite !normalize_staged. unfold JS.replace_space_runs.
  now rewrite (runs_same_classes s t false H).
Qed.

(** *** Length *)

Lemma map_chars_length f s : String.length (JS.map_chars f s) = String.length s.
Proof. induction s as [|c s IH]; [reflexivity|]. simpl. now rewrite IH. Qed.

Lemma runs_length s : forall b,
  String.length (JS.replace_space_runs_from b s) <= String.length s.
Proof.
  induction s as [|c s IH]; intros b; [reflexivity|]. simpl.
  destruct (JS.is_space c); [destruct b|]; simpl;
    [specialize (IH true) | specialize (IH true) | specialize (IH false)]; lia.
Qed.

Lemma trimStart_length s : String.length (JS.trimStart s) <= String.length s.
Proof.
  induction s as [|c s IH]; [reflexivity|]. simpl.
  destruct (JS.is_space c); simpl; lia.
Qed.

Lemma trimEnd_length s : String.length (JS.trimEnd s) <= String.length s.
Proof.
  induction s as [|c s IH]; [reflexivity|]. simpl.
  destruct (JS.is_space c && JS.is_empty (JS.trimEnd s)); simpl; lia.
Qed.

Lemma normalize_length s : String.length (normalize (Some s)) <= String.length s.
Proof.
  rewrite normalize_staged. unfold JS.trim, JS.replace_space_runs.
  pose proof (trimEnd_length (JS.trimStart (JS.replace_space_runs_from false
                                              (JS.map_chars staged s)))).
  pose proof (trimStart_length (JS.replace_space_runs_from false
                                  (JS.map_chars staged s))).
  pose proof (runs_length (JS.map_chars staged s) false).
  pose proof (map_chars_length staged s). lia.
Qed.

(** *** The empty result *)

Lemma runs_all_space s : forall b,
  all_space (JS.replace_space_runs_from b s) = all_space s.
Proof.
  induction s as [|c s IH]; intros b; [reflexivity|]. unfold all_space in *. simpl.
  destruct (JS.is_space c) eqn:E; [destruct b|]; simpl; rewrite ?E, ?IH; reflexivity.
Qed.

Lemma trim_empty_iff s : JS.trim s = EmptyString <-> all_space s = true.
Proof.
  unfold JS.trim. split.
  - induction s as [|c s IH]; [reflexivity|]. unfold all_space in *. simpl.
    destruct (JS.is_space c) eqn:E; [exact IH|]. simpl. rewrite E. discriminate.
  - intros H. now rewrite (trimStart_all_space s H).
Qed.

Lemma staged_all_space s :
  all_space (JS.map_chars staged s) = no_alnum s.
Proof.
  unfold all_space, no_alnum. induction s as [|c s IH]; [reflexivity|]. simpl.
  rewrite IH. f_equal. destruct (is_alnum_any c) eqn:E.
  - now destruct (ClassFacts.staged_alnum c E) as [_ ->].
  - now rewrite (ClassFacts.staged_other c E).
Qed.

Lemma normalize_empty_iff s :
  normalize (Some s) = EmptyString <-> no_alnum s = true.
Proof.
  rewrite normalize_staged, trim_empty_iff. unfold JS.replace_space_runs.
  now rewrite runs_all_space, staged_all_space.
Qed.

(** *** White space around the text *)

Lemma map_chars_app f s t :
  JS.map_chars f (s +:+ t) = JS.map_chars f s +:+ JS.map_chars f t.
Proof.
  induction s as [|c s IH]; [reflexivity|].
  change (String c s +:+ t) with (String c (s +:+ t)). simpl. now rewrite IH.
Qed.

Lemma staged_spaces l : all_space l = true -> all_space (JS.map_chars staged l) = true.
Proof.
  unfold all_space. induction l as [|c l IH]; [reflexivity|]. simpl.
  intros [Hc Hl]%andb_true_iff. rewrite (IH Hl), andb_true_r.
  unfold staged. rewrite (ClassFacts.space_lower c Hc), Hc.
  now rewrite orb_true_r.
Qed.

Lemma trimStart_runs_flag t :
  JS.trimStart (JS.replace_space_runs_from true t) =
  JS.trimStart (JS.replace_space_runs_from false t).
Proof.
  destruct t as [|c t]; [reflexivity|]. simpl.
  destruct (JS.is_space c); reflexivity.
Qed.

Lemma trimStart_runs_spaces l t : forall b,
  all_space l = true ->
  JS.trimStart (JS.replace_space_runs_from b (l +:+ t)) =
  JS.trimStart (JS.replace_space_runs_from false t).
Proof.
  unfold all_space. induction l as [|c l IH]; intros b H.
  - change (EmptyString +:+ t) with t. destruct b; [apply trimStart_runs_flag | reflexivity].
  - simpl in H. apply andb_true_iff in H as [Hc Hl].
    change (String c l +:+ t) with (String c (l +:+ t)). simpl. rewrite Hc.
    destruct b; simpl; rewrite ?CharFacts.space_is_space; now apply IH.
Qed.

Lemma trimEnd_runs_spaces s r : forall b,
  all_space r = true ->
  JS.trimEnd (JS.replace_space_runs_from b (s +:+ r)) =
  JS.trimEnd (JS.replace_space_runs_from b s).
Proof.
  intros b Hr. revert b. induction s as [|c s IH]; intros b.
  - change (EmptyString +:+ r) with r. simpl. apply trimEnd_all_space.
    now rewrite runs_all_space.
  - change (String c s +:+ r) with (String c (s +:+ r)). simpl.
    destruct (JS.is_space c); [destruct b|]; simpl; now rewrite IH.
Qed.

Lemma trim_runs_spaces s r : forall b,
  all_space r = true ->
  JS.trim (JS.replace_space_runs_from b (s +:+ r)) =
  JS.trim (JS.replace_space_runs_from b s).
Proof.
  intros b Hr. revert b. unfold JS.trim. induction s as [|c s IH]; intros b.
  - change (EmptyString +:+ r) with r. simpl.
    rewrite trimStart_all_space; [reflexivity | now rewrite runs_all_space].
  - change (String c s +:+ r) with (String c (s +:+ r)). simpl.
    destruct (JS.is_space c) eqn:E.
    + destruct b; simpl; rewrite ?CharFacts.space_is_space; apply IH.
    + cbn [JS.trimStart JS.trimEnd]. rewrite E. simpl.
      now rewrite (trimEnd_runs_spaces s r false Hr).
Qed.

Lemma normalize_surrounding_space l s r :
  all_space l = true -> all_space r = true ->
  normalize (Some (l +:+ s +:+ r)) = normalize (Some s).
Proof.
  intros Hl Hr. rewrite !normalize_staged, !map_chars_app.
  unfold JS.replace_space_runs, JS.trim at 1.
  rewrite (trimStart_runs_spaces _ _ false (staged_spaces l Hl)).
  apply (trim_runs_spaces _ _ false (staged_spaces r Hr)).
Qed.

(** X1.  [normalize] sees the letters and the digits of a string only, and
    those up to case: two strings of one length that bear, at every
    position, the same letter or digit up to case or else two characters
    that are neither, have the same normal form, and the two matchers
    cannot tell one from the other. *)
Theorem normalize_ignores_case_and_punctuation s t :
  same_classes s t = true ->
  normalize (Some s) = normalize (Some t) /\
  (forall accepted, equalsAny s accepted = equalsAny t accepted) /\
  (forall keywords, containsAnyKeyword s keywords = containsAnyKeyword t keywords).
Proof.
  intros H. pose proof (normalize_same_classes s t H) as E.
  split; [exact E|]. split; intros l.
  - unfold equalsAny. now rewrite E.
  - unfold containsAnyKeyword. now rewrite E.
Qed.

Lemma normalize_ignores_case_and_punctuation_witness :
  normalize (Some "Emma's Day!") = normalize (Some "emma s day ") /\
  (forall accepted, equalsAny "Emma's Day!" accepted = equalsAny "emma s day " accepted) /\
  (forall keywords,
      containsAnyKeyword "Emma's Day!" keywords = containsAnyKeyword "emma s day " keywords).
Proof.
  apply (normalize_ignores_case_and_punctuation "Emma's Day!" "emma s day "). reflexivity.
Defined.

(** X2.  White space before and after a text, of any kind and any length,
    changes neither its normal form nor what the matchers say of it. *)
Theorem normalize_ignores_outer_space l s r :
  all_space l = true -> all_space r = true ->
  normalize (Some (l +:+ s +:+ r)) = normalize (Some s) /\
  (forall accepted, equalsAny (l +:+ s +:+ r) accepted = equalsAny s accepted) /\
  (forall keywords,
      containsAnyKeyword (l +:+ s +:+ r) keywords = containsAnyKeyword s keywords).
Proof.
  intros Hl Hr. pose proof (normalize_surrounding_space l s r Hl Hr) as E.
  split; [exact E|]. split; intros x.
  - unfold equalsAny. now rewrite E.
  - unfold containsAnyKeyword. now rewrite E.
Qed.

Lemma normalize_ignores_outer_space_witness :
  normalize (Some ("  " +:+ "Tom went to school." +:+ (" " +:+ JS.newline))) =
  normalize (Some "Tom went to school.") /\
  equalsAny ("  " +:+ "Tom went to school." +:+ (" " +:+ JS.newline))
            (Some ["Tom went to school."]) = true.
Proof.
  destruct (normalize_ignores_outer_space "  " "Tom went to school." (" " +:+ JS.newline)
              eq_refl eq_refl) as (E & Heq & _).
  split; [exact E|]. rewrite Heq. reflexivity.
Defined.

(** The normal form is never longer than the string. *)
Lemma normalize_never_longer s :
  String.length (normalize s) <= String.length (JS.or_empty s).
Proof. destruct s as [s|]; [apply normalize_length | reflexivity]. Qed.

(** X3.  The normal form is empty exactly when the string has no letter
    and no digit. *)
Theorem normalize_empty_exactly s :
  normalize (Some s) = EmptyString <-> no_alnum s = true.
Proof. apply normalize_empty_iff. Qed.

(** ** The matchers at their edges *)

Lemma containsAnyKeyword_same_elements text l1 l2 :
  (forall k, k ∈ l1 -> k ∈ l2) ->
  containsAnyKeyword text (Some l1) = true -> containsAnyKeyword text (Some l2) = true.
Proof.
  intros H. rewrite !containsAnyKeyword_iff. intros (k & Hk & Hi). exists k. auto.
Qed.

Lemma includes_refl s : JS.includes s s = true.
Proof.
  apply includes_iff. exists EmptyString, EmptyString.
  change (EmptyString +:+ s +:+ EmptyString) with (s +:+ EmptyString).
  now rewrite append_empty_r.
Qed.

Lemma includes_empty s : JS.includes s EmptyString = true.
Proof. destruct s; reflexivity. Qed.

(** X4.  [containsAnyKeyword] is true exactly when the normal form of some
    keyword occurs, as a run of consecutive characters, in the normal form
    of the text; it is false on an empty list of keywords and on one left
    out. *)
Theorem containsAnyKeyword_spec :
  (forall text keywords,
      containsAnyKeyword text (Some keywords) = true <->
      exists k l r, k ∈ keywords /\
                    normalize (Some text) = l +:+ normalize (Some k) +:+ r) /\
  (forall text, containsAnyKeyword text (Some []) = false) /\
  (forall text, containsAnyKeyword text None = false).
Proof.
  split; [|split; reflexivity].
  intros text keywords. rewrite containsAnyKeyword_iff. split.
  - intros (k & Hk & (l & r & E)%includes_iff). now exists k, l, r.
  - intros (k & l & r & Hk & E). exists k. split; [exact Hk|].
    apply includes_iff. now exists l, r.
Qed.

(** X5.  [containsAnyKeyword] looks at which keywords there are, not at
    their order or number: a longer list never turns a match into a miss.
    And a text that [equalsAny] accepts against a list is matched by
    [containsAnyKeyword] against the same list. *)
Theorem containsAnyKeyword_monotone text l1 l2 :
  (forall k, k ∈ l1 -> k ∈ l2) ->
  (containsAnyKeyword text (Some l1) = true -> containsAnyKeyword text (Some l2) = true) /\
  (equalsAny text (Some l1) = true -> containsAnyKeyword text (Some l2) = true).
Proof.
  intros H. split; [now apply containsAnyKeyword_same_elements|].
  intros (c & Hc & E)%equalsAny_iff. apply containsAnyKeyword_iff.
  exists c. split; [now apply H|]. rewrite E. apply includes_refl.
Qed.

Lemma containsAnyKeyword_monotone_witness :
  containsAnyKeyword "She felt a bit nervous."
    (Some ["excited"; "nervous"; "excited"]) = true /\
  containsAnyKeyword "Tom went to school!" (Some ["x"; "tom went to school"]) = true.
Proof.
  split.
  - apply (proj1 (containsAnyKeyword_monotone "She felt a bit nervous."
                    ["nervous"; "excited"] ["excited"; "nervous"; "excited"]
                    ltac:(intros k; rewrite !elem_of_cons; tauto))).
    reflexivity.
  - apply (proj2 (containsAnyKeyword_monotone "Tom went to school!"
                    ["tom went to school"] ["x"; "tom went to school"]
                    ltac:(intros k; rewrite !elem_of_cons; tauto))).
    reflexivity.
Defined.

(** X6.  For keywords and texts of code units below U+0100: a keyword with
    no letter a-z, A-Z and no digit matches every text, the empty one too,
    since its normal form is the empty string, which occurs in every
    string. *)
Theorem blank_keyword_matches_everything text keywords k :
  k ∈ keywords -> no_alnum k = true ->
  containsAnyKeyword text (Some keywords) = true.
Proof.
  intros Hk Hb. apply containsAnyKeyword_iff. exists k. split; [exact Hk|].
  apply normalize_empty_iff in Hb. rewrite Hb. apply includes_empty.
Qed.

Lemma blank_keyword_matches_everything_witness :
  containsAnyKeyword EmptyString (Some ["nervous"; "?!"]) = true.
Proof.
  apply (blank_keyword_matches_everything EmptyString ["nervous"; "?!"] "?!");
    [rewrite !elem_of_cons; auto | reflexivity].
Defined.

Lemma equalsAny_blank text accepted :
  no_alnum text = true ->
  (equalsAny text (Some accepted) = true <->
   exists c, c ∈ accepted /\ no_alnum c = true).
Proof.
  intros Hb. apply normalize_empty_iff in Hb. rewrite equalsAny_iff, Hb.
  split; intros (c & Hc & E); exists c; (split; [exact Hc|]).
  - now apply normalize_empty_iff.
  - apply normalize_empty_iff in E. congruence.
Qed.

(** X7.  For texts and accepted answers of code units below U+0100: an
    answer with no letter a-z, A-Z and no digit, the empty answer among
    them, is accepted by [equalsAny] exactly when one of the accepted
    answers has no such letter and no digit either. *)
Theorem blank_answer_accepted_iff text accepted :
  no_alnum text = true ->
  (equalsAny text (Some accepted) = true <->
   exists c, c ∈ accepted /\ no_alnum c = true).
Proof. apply equalsAny_blank. Qed.

Lemma blank_answer_accepted_iff_witness :
  equalsAny " ... " (Some ["Tom went to school."]) = false /\
  equalsAny " ... " (Some ["Tom went to school."; "?"]) = true.
Proof.
  split.
  - apply not_true_is_false. intros H.
    apply (proj1 (blank_answer_accepted_iff " ... " ["Tom went to school."] eq_refl)) in H.
    destruct H as (c & Hc & Hn). apply list_elem_of_singleton in Hc. subst c. discriminate Hn.
  - apply (proj2 (blank_answer_accepted_iff " ... " ["Tom went to school."; "?"] eq_refl)).
    exists "?". split; [rewrite !elem_of_cons; auto | reflexivity].
Defined.

(** ** Attempted count and scores: bounds *)

Lemma count_ext_elem {A} (p q : A -> bool) l :
  (forall x, x ∈ l -> p x = q x) -> count p l = count q l.
Proof.
  induction l as [|x l IH]; intros H; [reflexivity|].
  rewrite !count_cons, (H x) by apply list_elem_of_here. f_equal. apply IH.
  intros y Hy. apply H. now apply list_elem_of_further.
Qed.

Lemma count_mono {A} (p q : A -> bool) l :
  (forall x, x ∈ l -> p x = true -> q x = true) -> count p l <= count q l.
Proof.
  induction l as [|x l IH]; intros H; [reflexivity|]. rewrite !count_cons.
  assert (count p l <= count q l)
    by (apply IH; intros y Hy; apply H; now apply list_elem_of_further).
  specialize (H x (list_elem_of_here _ _)).
  destruct (p x); [rewrite H by reflexivity|destruct (q x)]; lia.
Qed.

Lemma attempted_empty it : attempted ∅ it = false.
Proof. unfold attempted. rewrite lookup_empty. now destruct (item_type (item it)). Qed.


Lemma autoScore_fold_le answers l : forall n,
  fold_left (autoScore_step answers) l n <= n + length l.
Proof.
  induction l as [|it l IH]; intros n; simpl; [lia|].
  specialize (IH (autoScore_step answers n it)).
  assert (autoScore_step answers n it <= n + 1).
  { unfold autoScore_step. destruct (item it); try lia;
      match goal with |- context [if ?b then _ else _] => destruct b end; lia. }
  lia.
Qed.

Lemma autoScore_le_total T answers : autoScore T answers <= totalAutoPoints T.
Proof. apply (autoScore_fold_le answers (autoScoredItems T) 0). Qed.

Lemma reachable_selfScore catalog s :
  reachable catalog s ->
  selfScoreWriting s = None \/ selfScoreWriting s = Some 0 \/ selfScoreWriting s = Some 1.
Proof.
  induction 1 as [|s e s' Hs IH [e' He]]; [now left|].
  destruct e'; simpl; auto. destruct point; auto.
Qed.

(** X9.  The auto-score never exceeds the number of auto-scored items.
    In every state the page can reach the writing self-score is unset, 0
    or 1, so the final score never exceeds the total. *)
Theorem score_bounds :
  (forall T answers, autoScore T answers <= totalAutoPoints T) /\
  (forall catalog s,
      reachable catalog s ->
      (selfScoreWriting s = None \/ selfScoreWriting s = Some 0 \/
       selfScoreWriting s = Some 1) /\
      finalScore (TEST catalog s) (answers s) (selfScoreWriting s) <=
      totalPoints (TEST catalog s)).
Proof.
  split; [exact autoScore_le_total|]. intros catalog s Hs.
  pose proof (reachable_selfScore catalog s Hs) as Hw. split; [exact Hw|].
  pose proof (autoScore_le_total (TEST catalog s) (answers s)).
  unfold finalScore, totalPoints.
  destruct Hw as [-> | [-> | ->]]; simpl; lia.
Qed.

Lemma score_bounds_witness :
  let s := setSelfScoreWriting 1 (setAnswer "mc1" "b" (setTab test initial_session)) in
  finalScore (TEST TESTS s) (answers s) (selfScoreWriting s) <= totalPoints (TEST TESTS s).
Proof.
  intros s. apply (proj2 score_bounds TESTS s).
  apply (run_reachable TESTS [ClickStartTest; ChooseOption "mc1" opt_b; ClickSelfScore true]
           initial_session); [apply reachable_initial | reflexivity].
Defined.

(** ** The auto-score as a sum over the items *)

(** X10.  The auto-score does not go down when answers become correct:
    if every item that is correct under one answer map is correct under
    another, the second score is at least the first. *)
Theorem autoScore_monotone T a1 a2 :
  (forall it, it ∈ allItems T -> mcq_correct a1 it = true -> mcq_correct a2 it = true) ->
  (forall it, it ∈ allItems T -> text_correct a1 it = true -> text_correct a2 it = true) ->
  autoScore T a1 <= autoScore T a2.
Proof.
  intros Hm Ht. rewrite !autoScore_counts.
  pose proof (count_mono (mcq_correct a1) (mcq_correct a2) (allItems T) Hm).
  pose proof (count_mono (text_correct a1) (text_correct a2) (allItems T) Ht).
  lia.
Qed.

Lemma autoScore_sum answers l :
  count (mcq_correct answers) l + count (text_correct answers) l =
  list_sum (map (contribution answers) l).
Proof.
  induction l as [|it l IH]; [reflexivity|]. rewrite !count_cons. simpl.
  rewrite <- IH. unfold contribution, mcq_correct, text_correct.
  destruct (item it); simpl; try lia;
    match goal with |- context [if ?b then _ else _] => destruct b end; simpl; lia.
Qed.

Lemma contribution_insert_ne answers id v it :
  item_id (item it) <> id ->
  contribution (<[id := v]> answers) it = contribution answers it.
Proof.
  intros H. unfold contribution, mcq_correct, text_correct, stored.
  now rewrite lookup_insert_ne by congruence.
Qed.

Lemma sum_insert_fresh answers id v l :
  id ∉ map (fun it => item_id (item it)) l ->
  list_sum (map (contribution (<[id := v]> answers)) l) =
  list_sum (map (contribution answers) l).
Proof.
  induction l as [|it l IH]; intros H; [reflexivity|]. simpl in *.
  apply not_elem_of_cons in H as [Hne H].
  rewrite contribution_insert_ne by congruence. now rewrite IH.
Qed.

Lemma sum_insert_one answers v l it :
  NoDup (map (fun it => item_id (item it)) l) -> it ∈ l ->
  list_sum (map (contribution (<[item_id (item it) := v]> answers)) l) +
  contribution answers it =
  list_sum (map (contribution answers) l) +
  contribution (<[item_id (item it) := v]> answers) it.
Proof.
  induction l as [|x l IH]; intros Hnd Hin; [now apply elem_of_nil in Hin|].
  simpl in Hnd. apply NoDup_cons in Hnd as [Hx Hnd]. simpl.
  apply elem_of_cons in Hin as [->|Hin].
  - rewrite (sum_insert_fresh _ _ _ _ Hx). lia.
  - specialize (IH Hnd Hin).
    assert (Hne : item_id (item x) <> item_id (item it)).
    { intros E. apply Hx. rewrite E. apply list_elem_of_fmap. eauto. }
    rewrite (contribution_insert_ne _ _ _ _ Hne). lia.
Qed.

(** X11.  When the ids of the items of a test are unique, storing an
    answer for one item changes the auto-score by what that item adds to
    it, before and after, and by nothing else. *)
Theorem autoScore_changes_by_one_item T answers it v :
  unique_item_ids T -> it ∈ allItems T ->
  autoScore T (<[item_id (item it) := v]> answers) + contribution answers it =
  autoScore T answers + contribution (<[item_id (item it) := v]> answers) it.
Proof.
  intros Hnd Hin. rewrite !autoScore_counts, !autoScore_sum.
  now apply sum_insert_one.
Qed.

(** Going through the items of a test of the catalog one by one. *)
Ltac each_item Hit tac :=
  apply list_elem_of_In in Hit; vm_compute in Hit;
  repeat (destruct Hit as [<-|Hit]; [tac|]); destruct Hit.

Lemma autoScore_monotone_witness :
  autoScore TEST_day2 (<["d2_1" := "b"]> ∅) <=
  autoScore TEST_day2 (<["d2_2" := "a"]> (<["d2_1" := "b"]> ∅)).
Proof.
  apply (autoScore_monotone TEST_day2 (<["d2_1" := "b"]> ∅)
           (<["d2_2" := "a"]> (<["d2_1" := "b"]> ∅)));
    intros it Hit; each_item Hit ltac:(vm_compute; congruence).
Defined.

Lemma autoScore_changes_by_one_item_witness :
  let it := {| item := MCQItem {| it_id := "d2_1"; prompt := "Tom ____ to a secondary school.";
                                  guidance := None |}
                         [{| opt_id := opt_a; label := "go" |};
                          {| opt_id := opt_b; label := "goes" |};
                          {| opt_id := opt_c; label := "went" |}] opt_b;
               sectionName := "Task 1: Grammar (Choose the correct answer)" |} in
  autoScore TEST_day2 (<["d2_1" := "b"]> (<["d2_2" := "a"]> ∅)) +
  contribution (<["d2_2" := "a"]> ∅) it =
  autoScore TEST_day2 (<["d2_2" := "a"]> ∅) +
  contribution (<["d2_1" := "b"]> (<["d2_2" := "a"]> ∅)) it.
Proof.
  intros it.
  apply (autoScore_changes_by_one_item TEST_day2 (<["d2_2" := "a"]> ∅) it "b").
  - apply (bool_decide_unpack _). vm_compute. exact I.
  - apply list_elem_of_In. vm_compute. auto.
Defined.

(** ** Answers under ids the test does not have *)

Lemma attempted_ext a1 a2 it :
  a1 !! item_id (item it) = a2 !! item_id (item it) -> attempted a1 it = attempted a2 it.
Proof. intros H. unfold attempted. now rewrite H. Qed.

Lemma forallb_ext_elem {A} (p q : A -> bool) l :
  (forall x, x ∈ l -> p x = q x) -> forallb p l = forallb q l.
Proof.
  induction l as [|x l IH]; intros H; [reflexivity|]. simpl.
  rewrite (H x) by apply list_elem_of_here. f_equal. apply IH.
  intros y Hy. apply H. now apply list_elem_of_further.
Qed.

Lemma elem_of_allItems_inv T it :
  it ∈ allItems T ->
  exists s, s ∈ sections T /\ item it ∈ items s /\ sectionName it = name s.
Proof.
  unfold allItems. intros H. apply list_elem_of_In, in_flat_map in H as (s & Hs & H).
  apply in_map_iff in H as (i & <- & Hi). exists s.
  rewrite <- !list_elem_of_In in *. auto.
Qed.

Lemma derived_values_ext T a1 a2 :
  (forall it, it ∈ allItems T -> a1 !! item_id (item it) = a2 !! item_id (item it)) ->
  attemptedCount T a1 = attemptedCount T a2 /\
  isComplete T a1 = isComplete T a2 /\
  autoScore T a1 = autoScore T a2 /\
  shortHints T a1 = shortHints T a2 /\
  exportText T a1 = exportText T a2.
Proof.
  intros H. split; [|split; [|split; [|split]]].
  - apply (count_ext_elem (attempted a1) (attempted a2)).
    intros it Hit. now apply attempted_ext, H.
  - apply forallb_ext_elem. intros it Hit. now apply attempted_ext, H.
  - rewrite !autoScore_counts. f_equal; apply count_ext_elem; intros it Hit;
      unfold mcq_correct, text_correct, stored; now rewrite (H it Hit).
  - unfold shortHints. apply map_ext_elem. intros it Hit.
    apply list_elem_of_filter in Hit as [_ Hit].
    unfold shortHint. pose proof (H it Hit) as E. unfold item_id in E. now rewrite E.
  - unfold exportText. f_equal. apply flat_map_ext_elem. intros s Hs.
    apply map_ext_elem. intros it Hit. unfold export_block, export_answer.
    pose proof (H _ (elem_of_allItems T s it Hs Hit)) as E. simpl in E.
    now rewrite E.
Qed.

(** X12.  What is stored under an id that no item of the test bears has no
    effect: the attempted count, the completion check, the auto-score, the
    hints and the export text are the same with it, without it, and with
    another string in its place. *)
Theorem foreign_answers_have_no_effect T answers id v :
  (forall it, it ∈ allItems T -> item_id (item it) <> id) ->
  let a' := <[id := v]> answers in
  let a'' := delete id answers in
  (attemptedCount T a' = attemptedCount T answers /\
   isComplete T a' = isComplete T answers /\
   autoScore T a' = autoScore T answers /\
   shortHints T a' = shortHints T answers /\
   exportText T a' = exportText T answers) /\
  (attemptedCount T a'' = attemptedCount T answers /\
   isComplete T a'' = isComplete T answers /\
   autoScore T a'' = autoScore T answers /\
   shortHints T a'' = shortHints T answers /\
   exportText T a'' = exportText T answers).
Proof.
  intros H a' a''. split; apply derived_values_ext; intros it Hit; subst a' a''.
  - apply lookup_insert_ne. intros E. now apply (H it Hit).
  - apply lookup_delete_ne. intros E. now apply (H it Hit).
Qed.

Lemma foreign_answers_have_no_effect_witness :
  autoScore TEST_day2 (<["mc1" := "b"]> answers_day2_all) = autoScore TEST_day2 answers_day2_all /\
  exportText TEST_day2 (<["mc1" := "b"]> answers_day2_all) = exportText TEST_day2 answers_day2_all.
Proof.
  destruct (foreign_answers_have_no_effect TEST_day2 answers_day2_all "mc1" "b")
    as [(_ & _ & Hs & _ & He) _].
  - intros it Hit. each_item Hit ltac:(vm_compute; discriminate).
  - split; [exact Hs | exact He].
Defined.

(** ** A perfect score *)

Lemma correct_entries_NoDup l :
  NoDup (map (fun it => item_id (item it)) l) -> NoDup (omap correct_entry l).*1.
Proof.
  induction l as [|it l IH]; intros H; [constructor|].
  simpl in H. apply NoDup_cons in H as [Hit H]. simpl.
  destruct (correct_entry it) as [[k v]|] eqn:E; [|now apply IH].
  simpl. apply NoDup_cons. split; [|now apply IH].
  assert (Hk : k = item_id (item it)).
  { unfold correct_entry, item_id in *.
    destruct (item it) as [b ? ?|b [|? ?]| |]; simpl; congruence. }
  intros Hin. apply Hit. subst k.
  apply list_elem_of_fmap in Hin as ([k' v'] & Hk' & Hin). simpl in Hk'. subst k'.
  apply list_elem_of_omap in Hin as (it' & Hit' & E').
  apply list_elem_of_fmap. exists it'. split; [|exact Hit'].
  unfold correct_entry, item_id in *.
  destruct (item it') as [b ? ?|b [|? ?]| |]; simpl; congruence.
Qed.

Lemma correct_answers_lookup T it k v :
  unique_item_ids T -> it ∈ allItems T -> correct_entry it = Some (k, v) ->
  correct_answers T !! k = Some v.
Proof.
  intros Hnd Hit E. unfold correct_answers.
  apply elem_of_list_to_map_1; [now apply correct_entries_NoDup|].
  apply list_elem_of_omap. eauto.
Qed.

(** X13.  A perfect auto-score can be had on every test whose item ids
    are unique and whose text items accept at least one answer: the answer
    map that stores the answer code of every mcq item and the first
    accepted answer of every text item scores the number of auto-scored
    items. *)
Theorem perfect_score_attainable T :
  unique_item_ids T ->
  forallb accepts_something (allItems T) = true ->
  autoScore T (correct_answers T) = totalAutoPoints T.
Proof.
  intros Hnd Hacc. rewrite autoScore_counts.
  change (totalAutoPoints T) with (count is_auto_scored (allItems T)).
  rewrite count_auto_scored. rewrite forallb_forall in Hacc.
  f_equal; apply count_ext_elem; intros it Hit;
    specialize (Hacc it (proj1 (list_elem_of_In _ _) Hit));
    unfold mcq_correct, text_correct, is_type, stored, accepts_something in *.
  - destruct (item it) as [b o a| | |] eqn:E; simpl; try reflexivity.
    change (item_id (MCQItem b o a)) with (it_id b).
    rewrite (correct_answers_lookup T it (it_id b) (code_of a) Hnd Hit)
      by (unfold correct_entry; now rewrite E).
    simpl. apply String.eqb_refl.
  - destruct (item it) as [|b [|c cs]| |] eqn:E; simpl; try reflexivity;
      try discriminate.
    change (item_id (TextAutoItem b (c :: cs))) with (it_id b).
    rewrite (correct_answers_lookup T it (it_id b) c Hnd Hit)
      by (unfold correct_entry; now rewrite E).
    simpl. apply equalsAny_iff. exists c.
    split; [apply list_elem_of_here | reflexivity].
Qed.

Lemma perfect_score_attainable_witness :
  autoScore TEST_original (correct_answers TEST_original) = 8.
Proof.
  apply (perfect_score_attainable TEST_original).
  - apply (bool_decide_unpack _). vm_compute. exact I.
  - reflexivity.
Defined.

(** ** Correct answers are attempted answers *)

Lemma space_not_alnum c : JS.is_space c = true -> is_alnum_any c = false.
Proof. unfold is_alnum_any. CharFacts.by_cases c. Qed.

Lemma all_space_no_alnum s : all_space s = true -> no_alnum s = true.
Proof.
  unfold all_space, no_alnum. induction s as [|c s IH]; [reflexivity|]. simpl.
  intros [Hc Hs]%andb_true_iff. now rewrite (space_not_alnum c Hc), IH.
Qed.

Lemma mcq_correct_attempted answers it :
  mcq_correct answers it = true -> attempted answers it = true.
Proof.
  unfold mcq_correct, attempted, stored.
  destruct (item it) as [b o a| | |]; try discriminate. simpl.
  change (item_id (MCQItem b o a)) with (it_id b).
  destruct (answers !! it_id b) as [[|c s]|]; simpl; try reflexivity;
    now destruct a.
Qed.

Lemma text_correct_attempted answers it :
  accepts_no_blank it = true ->
  text_correct answers it = true -> attempted answers it = true.
Proof.
  unfold text_correct, attempted, stored, accepts_no_blank.
  destruct (item it) as [|b acc| |]; try discriminate. simpl.
  change (item_id (TextAutoItem b acc)) with (it_id b).
  intros Hacc (c & Hc & E)%equalsAny_iff.
  rewrite forallb_forall in Hacc.
  specialize (Hacc c (proj1 (list_elem_of_In _ _) Hc)). apply negb_true_iff in Hacc.
  assert (Hn : normalize (Some (JS.or_empty (answers !! it_id b))) <> EmptyString).
  { rewrite E. intros Hn. apply normalize_empty_iff in Hn. congruence. }
  destruct (answers !! it_id b) as [s|]; simpl in *;
    [|now destruct Hn].
  destruct (JS.trim s) eqn:Et; [|reflexivity].
  destruct Hn. apply normalize_empty_iff, all_space_no_alnum.
  now apply trim_empty_iff.
Qed.

(** X14.  When every accepted answer of the text items has a letter or a
    digit, an item that scores is an item that counts as attempted, so the
    auto-score never exceeds the attempted count. *)
Theorem autoScore_le_attemptedCount T answers :
  forallb accepts_no_blank (allItems T) = true ->
  autoScore T answers <= attemptedCount T answers.
Proof.
  intros H. rewrite autoScore_counts. unfold attemptedCount.
  change (length (filter (fun it => attempted answers it = true) (allItems T)))
    with (count (attempted answers) (allItems T)).
  rewrite forallb_forall in H.
  induction (allItems T) as [|it l IH]; [reflexivity|]. rewrite !count_cons.
  assert (Hl : count (mcq_correct answers) l + count (text_correct answers) l
               <= count (attempted answers) l)
    by (apply IH; intros x Hx; apply H; now right).
  specialize (H it (or_introl eq_refl)).
  pose proof (mcq_correct_attempted answers it) as Hm.
  pose proof (text_correct_attempted answers it H) as Ht.
  assert (Hex : mcq_correct answers it = true -> text_correct answers it = true -> False)
    by (unfold mcq_correct, text_correct; destruct (item it); discriminate).
  destruct (mcq_correct answers it), (text_correct answers it);
    try (exfalso; now apply Hex);
    try rewrite Hm by reflexivity; try rewrite Ht by reflexivity;
    destruct (attempted answers it); lia.
Qed.

Lemma autoScore_le_attemptedCount_witness :
  autoScore TEST_day2 (<["d2_s1" := "Tom went to school"]> (<["d2_1" := "b"]> ∅)) <=
  attemptedCount TEST_day2 (<["d2_s1" := "Tom went to school"]> (<["d2_1" := "b"]> ∅)).
Proof. apply (autoScore_le_attemptedCount TEST_day2). reflexivity. Defined.

(** ** The dash of the export text *)

(** X15.  An item that does not count as attempted shows the dash in the
    export text.  The dash does not tell the other way round: a dash typed
    as the answer of a writing item counts as attempted and prints as the
    same dash. *)
Theorem unattempted_exports_dash :
  (forall answers it sname,
      attempted answers {| item := it; sectionName := sname |} = false ->
      export_answer answers it = dash) /\
  (forall answers base sname,
      let a := <[it_id base := dash]> answers in
      attempted a {| item := WritingItem base; sectionName := sname |} = true /\
      export_answer a (WritingItem base) = dash).
Proof.
  split.
  - intros answers it sname. unfold attempted, export_answer. simpl.
    destruct it; simpl; destruct (answers !! _) as [[|c s]|]; simpl;
      try reflexivity; try discriminate;
      destruct (JS.is_empty _); simpl; (reflexivity || discriminate).
  - intros answers base sname a. subst a.
    unfold attempted, export_answer, item_id. simpl.
    rewrite lookup_insert_eq. split; reflexivity.
Qed.

Lemma unattempted_exports_dash_witness :
  export_answer (<["d2_w1" := "   "]> ∅)
    (WritingItem {| it_id := "d2_w1";
                    prompt := "Write 3 sentences.";
                    guidance := Some "Use full sentences." |}) = dash.
Proof.
  apply (proj1 unattempted_exports_dash (<["d2_w1" := "   "]> ∅) _ "Task 3: Short Writing").
  reflexivity.
Defined.

(** ** Invariants of the states the page can reach *)

(** X16.  In every state the page can reach, every key of the answer map
    is the id of an item of the selected test. *)
Theorem answer_keys_are_item_ids catalog s id :
  reachable catalog s -> is_Some (answers s !! id) ->
  exists it, it ∈ allItems (TEST catalog s) /\ item_id (item it) = id.
Proof. intros Hs Hid. now apply (reachable_answer_keys catalog s Hs). Qed.

Lemma answer_keys_are_item_ids_witness :
  let s := setAnswer "mc1" "b" (setTab test initial_session) in
  exists it, it ∈ allItems (TEST TESTS s) /\ item_id (item it) = "mc1".
Proof.
  intros s. apply (answer_keys_are_item_ids TESTS s "mc1").
  - apply (run_reachable TESTS [ClickStartTest; ChooseOption "mc1" opt_b] initial_session);
      [apply reachable_initial | reflexivity].
  - eexists. reflexivity.
Defined.

(** X17.  When the ids of the items are unique within every test of the
    catalog, what the page stores for an mcq item is, in every state it
    can reach, the code of one of the options of that item. *)
Theorem mcq_answers_are_option_codes catalog s it base options answer v :
  unique_ids catalog -> reachable catalog s ->
  it ∈ allItems (TEST catalog s) ->
  item it = MCQItem base options answer ->
  answers s !! it_id base = Some v ->
  exists o, o ∈ options /\ v = code_of (opt_id o).
Proof.
  intros Hu Hs. apply (reachable_mcq_answers catalog s Hu Hs).
Qed.

Lemma mcq_answers_are_option_codes_witness :
  let base := {| it_id := "mc1"; prompt := "After-school activities help students ______.";
                 guidance := None |} in
  let options := [ {| opt_id := opt_a; label := "worry" |};
                   {| opt_id := opt_b; label := "relax" |};
                   {| opt_id := opt_c; label := "argue" |} ] in
  exists o, o ∈ options /\ "b" = code_of (opt_id o).
Proof.
  intros base options.
  apply (mcq_answers_are_option_codes TESTS
           (setAnswer "mc1" "b" (setTab test initial_session))
           {| item := MCQItem base options opt_b; sectionName := "Task 2: Vocabulary" |}
           base options opt_b "b").
  - exact TESTS_unique_ids.
  - apply (run_reachable TESTS [ClickStartTest; ChooseOption "mc1" opt_b] initial_session);
      [apply reachable_initial | reflexivity].
  - apply list_elem_of_In. vm_compute. auto 10.
  - reflexivity.
  - reflexivity.
Defined.

(** X18.  Under the same condition the export text of every state the
    page can reach follows the one rule for all item types: the dash for a
    missing or white-space-only answer, the capital code and the label for
    an mcq item, the stored string for the others. *)
Theorem export_on_reachable_states catalog s :
  unique_ids catalog -> reachable catalog s ->
  exportText (TEST catalog s) (answers s) = spec_exportText (TEST catalog s) (answers s).
Proof. apply reachable_export_agrees. Qed.

Lemma export_on_reachable_states_witness :
  let s := setAnswer "mc1" "b" (setTab test initial_session) in
  exportText (TEST TESTS s) (answers s) = spec_exportText (TEST TESTS s) (answers s).
Proof.
  intros s. apply (export_on_reachable_states TESTS s TESTS_unique_ids).
  apply (run_reachable TESTS [ClickStartTest; ChooseOption "mc1" opt_b] initial_session);
    [apply reachable_initial | reflexivity].
Defined.

(** ** A test can be finished *)

Lemma run_app catalog l1 l2 : forall s,
  run catalog (l1 ++ l2) s =
  match run catalog l1 s with
  | Some s1 => run catalog l2 s1
  | None => None
  end.
Proof.
  induction l1 as [|e l1 IH]; intros s; [reflexivity|]. simpl.
  destruct (enabled catalog s e); [apply IH | reflexivity].
Qed.

Lemma nonblank_attempted answers it :
  nonblank answers (item_id (item it)) -> attempted answers it = true.
Proof.
  intros (v & Hv & Hn). unfold attempted. rewrite Hv.
  destruct (item_type (item it)); simpl;
    try (destruct (JS.trim v); [congruence | reflexivity]).
  destruct v; [now destruct Hn | reflexivity].
Qed.

Lemma nonblank_insert answers id v id' :
  JS.trim v <> EmptyString ->
  nonblank answers id' \/ id' = id -> nonblank (<[id := v]> answers) id'.
Proof.
  intros Hv H. destruct (decide (id = id')) as [<-|Hne].
  - exists v. now rewrite lookup_insert_eq.
  - destruct H as [(w & Hw & Hn)|E]; [|congruence].
    exists w. now rewrite lookup_insert_ne.
Qed.

Lemma has_radio_intro T it base o os answer :
  it ∈ allItems T -> item it = MCQItem base (o :: os) answer ->
  has_radio T (it_id base) (opt_id o) = true.
Proof.
  intros Hit E. unfold has_radio. apply existsb_exists. exists it.
  split; [now apply list_elem_of_In|]. rewrite E. simpl.
  rewrite String.eqb_refl. simpl. now destruct (opt_id o).
Qed.

Lemma has_textarea_intro T it :
  it ∈ allItems T -> item_type (item it) <> mcq ->
  has_textarea T (item_id (item it)) = true.
Proof.
  intros Hit Hty. unfold has_textarea. apply existsb_exists. exists it.
  split; [now apply list_elem_of_In|].
  destruct (item_type (item it)); try congruence; apply String.eqb_refl.
Qed.

Lemma answering_run catalog its : forall s,
  tab s = test ->
  (forall it, it ∈ its -> it ∈ allItems (TEST catalog s) /\ has_options it = true) ->
  exists s',
    run catalog (flat_map answer_events its) s = Some s' /\
    tab s' = test /\ selectedTestKey s' = selectedTestKey s /\
    finished s' = finished s /\ selfScoreWriting s' = selfScoreWriting s /\
    forall id, nonblank (answers s) id \/ (exists it, it ∈ its /\ item_id (item it) = id) ->
               nonblank (answers s') id.
Proof.
  induction its as [|it its IH]; intros s Htab Hits.
  - exists s. repeat split; auto. intros id [H|(it & Hit & _)]; [exact H|].
    now apply elem_of_nil in Hit.
  - destruct (Hits it (list_elem_of_here _ _)) as [Hin Hopt].
    assert (Hrest : forall s1, selectedTestKey s1 = selectedTestKey s ->
              forall it', it' ∈ its ->
              it' ∈ allItems (TEST catalog s1) /\ has_options it' = true).
    { intros s1 Hk it' Hit'. unfold TEST. rewrite Hk.
      apply Hits. now apply list_elem_of_further. }
    assert (Hstep : exists e v,
              answer_events it = [e] /\ enabled catalog s e = true /\
              handle e s = setAnswer (item_id (item it)) v s /\
              JS.trim v <> EmptyString).
    { unfold answer_events, has_options, item_id in *.
      destruct (item it) as [b [|o os] a|b acc|b k|b] eqn:E; try discriminate.
      - exists (ChooseOption (it_id b) (opt_id o)), (code_of (opt_id o)).
        simpl. rewrite Htab. simpl.
        rewrite (has_radio_intro _ it b o os a Hin E).
        repeat split. now destruct (opt_id o).
      - exists (TypeAnswer (it_id b) "x"), "x". simpl. rewrite Htab. simpl.
        pose proof (has_textarea_intro _ it Hin) as Ht. unfold item_id in Ht.
        rewrite E in Ht. simpl in Ht. rewrite Ht by discriminate.
        repeat split. discriminate.
      - exists (TypeAnswer (it_id b) "x"), "x". simpl. rewrite Htab. simpl.
        pose proof (has_textarea_intro _ it Hin) as Ht. unfold item_id in Ht.
        rewrite E in Ht. simpl in Ht. rewrite Ht by discriminate.
        repeat split. discriminate.
      - exists (TypeAnswer (it_id b) "x"), "x". simpl. rewrite Htab. simpl.
        pose proof (has_textarea_intro _ it Hin) as Ht. unfold item_id in Ht.
        rewrite E in Ht. simpl in Ht. rewrite Ht by discriminate.
        repeat split. discriminate. }
    destruct Hstep as (e & v & Hev & Hen & Hh & Hv).
    destruct (IH (setAnswer (item_id (item it)) v s) Htab (Hrest _ eq_refl))
      as (s' & Hrun & Ht' & Hk' & Hf' & Hw' & Hnb).
    exists s'. simpl. rewrite Hev. simpl. rewrite Hen, Hh.
    repeat split; auto. intros id H. apply Hnb.
    destruct H as [H|(it' & Hit' & Hid)].
    + left. apply nonblank_insert; auto.
    + apply elem_of_cons in Hit' as [->|Hit'].
      * left. apply nonblank_insert; auto.
      * right. eauto.
Qed.

(** X19.  A test each of whose mcq items has an option can be finished
    from every state: opening the test view, answering every item in turn
    and clicking Finish is a run of enabled events, and it ends in the
    results view of the same test with [finished] set and every item
    attempted. *)
Theorem test_can_be_finished catalog s :
  forallb has_options (allItems (TEST catalog s)) = true ->
  exists s',
    run catalog (finishing_run (TEST catalog s)) s = Some s' /\
    finished s' = true /\ tab s' = results /\
    selectedTestKey s' = selectedTestKey s /\
    isComplete (TEST catalog s') (answers s') = true.
Proof.
  intros Hopt. rewrite forallb_forall in Hopt.
  destruct (answering_run catalog (allItems (TEST catalog s)) (setTab test s) eq_refl)
    as (s1 & Hrun & Ht & Hk & _ & _ & Hnb).
  { intros it Hit. split; [exact Hit|]. now apply Hopt, list_elem_of_In. }
  assert (Hc : isComplete (TEST catalog s1) (answers s1) = true).
  { unfold isComplete, TEST. rewrite Hk. simpl. apply forallb_forall.
    intros it Hit. apply nonblank_attempted, Hnb. right. exists it.
    split; [now apply list_elem_of_In | reflexivity]. }
  exists (finish s1). unfold finishing_run. cbn [run enabled handle].
  change (TEST catalog (setTab test s)) with (TEST catalog s) in Hrun.
  rewrite run_app, Hrun. simpl. rewrite Ht, Hc. simpl.
  repeat split; auto.
Qed.

Lemma test_can_be_finished_witness :
  exists s',
    run TESTS (finishing_run TEST_day1) initial_session = Some s' /\
    finished s' = true /\ tab s' = results /\
    selectedTestKey s' = day1 /\
    isComplete (TEST TESTS s') (answers s') = true.
Proof. apply (test_can_be_finished TESTS initial_session). reflexivity. Defined.

(** ** After the finish *)

Lemma forallb_false_elem {A} (p : A -> bool) l x :
  x ∈ l -> p x = false -> forallb p l = false.
Proof.
  intros Hx Hp. apply not_true_is_false. intros H. rewrite forallb_forall in H.
  rewrite (H x) in Hp by now apply list_elem_of_In. discriminate.
Qed.

(** X20.  Once set, [finished] stays set until a reset or a change of
    test: no other event clears it.  It does not stay tied to the
    completion check: from a finished session the user can go back to the
    test, empty a text area and open the results again, with an item
    unanswered. *)
Theorem finished_outlives_completion :
  (forall catalog s e s',
      step catalog s e s' -> finished s = true ->
      finished s' = true \/ e = ClickReset \/ e = ClickStartOver \/
      exists key, e = SelectTest key) /\
  (forall catalog s id,
      finished s = true -> has_textarea (TEST catalog s) id = true ->
      exists s',
        run catalog [ClickTest; TypeAnswer id EmptyString; ClickResults] s = Some s' /\
        tab s' = results /\ finished s' = true /\
        isComplete (TEST catalog s') (answers s') = false).
Proof.
  split.
  - intros catalog s e s' [e' He] Hf. destruct e'; simpl; eauto.
  - intros catalog s id Hf Hta.
    exists (setTab results (setAnswer id EmptyString (setTab test s))).
    simpl. change (TEST catalog (setTab test s)) with (TEST catalog s).
    rewrite Hta, Hf. simpl. repeat split; auto.
    apply has_textarea_true in Hta as (it & Hit & Hty & Hid).
    apply (forallb_false_elem _ _ it Hit).
    unfold attempted. simpl. rewrite Hid, lookup_insert_eq.
    now destruct (item_type (item it)).
Qed.

Lemma finished_outlives_completion_witness :
  let s := finish {| selectedTestKey := day2; tab := test; answers := answers_day2_all;
                     selfScoreWriting := Some 1; finished := false |} in
  exists s',
    run TESTS [ClickTest; TypeAnswer "d2_w1" EmptyString; ClickResults] s = Some s' /\
    tab s' = results /\ finished s' = true /\
    isComplete (TEST TESTS s') (answers s') = false.
Proof.
  intros s. apply (proj2 finished_outlives_completion TESTS s "d2_w1"); reflexivity.
Defined.

(** ** Every state can be left *)

Lemma reachable_run catalog s :
  reachable catalog s <-> exists events, run catalog events initial_session = Some s.
Proof.
  split.
  - induction 1 as [|s e s' Hs (events & Hrun) [e' He]].
    + now exists [].
    + exists (events ++ [e']). rewrite run_app, Hrun. simpl. now rewrite He.
  - intros (events & Hrun). eapply run_reachable; [apply reachable_initial | exact Hrun].
Qed.

(** X21.  The states the page can reach are the end states of the runs of
    enabled events from the initial state, and each of them can be reached
    again from every state whatsoever: a reset and the selection of the
    first test bring the initial state back. *)
Theorem every_state_can_be_reached_again :
  (forall catalog s,
      reachable catalog s <-> exists events, run catalog events initial_session = Some s) /\
  (forall catalog s, run catalog [ClickReset; SelectTest day1] s = Some initial_session) /\
  (forall catalog s s',
      reachable catalog s' -> exists events, run catalog events s = Some s').
Proof.
  split; [exact reachable_run|]. split; [reflexivity|].
  intros catalog s s' (events & Hrun)%reachable_run.
  exists ([ClickReset; SelectTest day1] ++ events). now rewrite run_app.
Qed.

Lemma every_state_can_be_reached_again_witness :
  exists events,
    run TESTS events (finish (setAnswer "mc1" "c" (setTab test initial_session))) =
    Some (setAnswer "mc1" "b" (setTab test initial_session)).
Proof.
  apply (proj2 (proj2 every_state_can_be_reached_again) TESTS).
  apply (run_reachable TESTS [ClickStartTest; ChooseOption "mc1" opt_b] initial_session);
    [apply reachable_initial | reflexivity].
Defined.

(** ** Storing answers *)

(** X22.  [setAnswer] writes one entry of the answer map and nothing else:
    the id reads back the value, the other ids read what they read before,
    a second write to the same id replaces the first, writes to two ids can
    be made in either order, and the selected test, the view, the writing
    self-score and [finished] stay as they are. *)
Theorem setAnswer_upsert :
  (forall id v s, answers (setAnswer id v s) !! id = Some v) /\
  (forall id id' v s, id <> id' -> answers (setAnswer id v s) !! id' = answers s !! id') /\
  (forall id v1 v2 s, setAnswer id v2 (setAnswer id v1 s) = setAnswer id v2 s) /\
  (forall id1 id2 v1 v2 s,
      id1 <> id2 ->
      setAnswer id1 v1 (setAnswer id2 v2 s) = setAnswer id2 v2 (setAnswer id1 v1 s)) /\
  (forall id v s,
      selectedTestKey (setAnswer id v s) = selectedTestKey s /\
      tab (setAnswer id v s) = tab s /\
      selfScoreWriting (setAnswer id v s) = selfScoreWriting s /\
      finished (setAnswer id v s) = finished s).
Proof.
  split; [intros; apply lookup_insert_eq|].
  split; [intros; now apply lookup_insert_ne|].
  split; [intros; unfold setAnswer; simpl; now rewrite insert_insert_eq|].
  split; [|intros; repeat split].
  intros id1 id2 v1 v2 s Hne. unfold setAnswer. simpl. f_equal.
  now apply insert_insert_ne.
Qed.

(** ** Radio buttons *)

Lemma code_of_inj x y : code_of x = code_of y -> x = y.
Proof. destruct x, y; simpl; congruence. Qed.

(** X23.  The radio buttons of an mcq item show the stored choice: with no
    answer stored none is checked, two checked buttons bear the same code,
    and after a click on the button of a code the checked buttons of that
    item are those of that code, the buttons of the other items being as
    before. *)
Theorem radio_reflects_choice :
  (forall id o, radio_checked ∅ id o = false) /\
  (forall answers id o1 o2,
      radio_checked answers id o1 = true -> radio_checked answers id o2 = true ->
      opt_id o1 = opt_id o2) /\
  (forall s id value o,
      radio_checked (answers (handle (ChooseOption id value) s)) id o =
      option_id_eqb (opt_id o) value) /\
  (forall s id value id' o,
      id <> id' ->
      radio_checked (answers (handle (ChooseOption id value) s)) id' o =
      radio_checked (answers s) id' o).
Proof.
  split; [|split; [|split]].
  - intros id o. unfold radio_checked. rewrite lookup_empty. now destruct (opt_id o).
  - intros answers id o1 o2 H1 H2. unfold radio_checked in *.
    apply String.eqb_eq in H1, H2. apply code_of_inj. congruence.
  - intros s id value o. unfold radio_checked. simpl. rewrite lookup_insert_eq. simpl.
    now destruct value, (opt_id o).
  - intros s id value id' o Hne. unfold radio_checked. simpl.
    now rewrite lookup_insert_ne.
Qed.

Lemma find_unique_option options o :
  NoDup (option_codes options) -> o ∈ options ->
  List.find (fun x => option_id_eqb (opt_id x) (opt_id o)) options = Some o.
Proof.
  unfold option_codes. induction options as [|x l IH]; intros Hnd Hin;
    [now apply elem_of_nil in Hin|].
  simpl in Hnd. apply NoDup_cons in Hnd as [Hx Hnd]. simpl.
  apply elem_of_cons in Hin as [->|Hin].
  - now destruct (opt_id x).
  - destruct (option_id_eqb (opt_id x) (opt_id o)) eqn:E; [|now apply IH].
    destruct Hx. assert (opt_id x = opt_id o) as -> by (now destruct (opt_id x), (opt_id o)).
    apply list_elem_of_fmap. eauto.
Qed.

(** X24.  For an mcq item whose options bear different codes, the answer
    line of the export text is the text beside the radio button that is
    checked. *)
Theorem export_prints_checked_radio answers base options answer o :
  NoDup (option_codes options) -> o ∈ options ->
  radio_checked answers (it_id base) o = true ->
  export_answer answers (MCQItem base options answer) = radio_label o.
Proof.
  intros Hnd Hin Hc. unfold radio_checked in Hc. apply String.eqb_eq in Hc.
  assert (Ha : answers !! it_id base = Some (code_of (opt_id o))).
  { destruct (answers !! it_id base) as [v|]; simpl in Hc; [congruence|].
    now destruct (opt_id o). }
  rewrite (export_answer_mcq_code answers base options answer (opt_id o) o Ha
             (find_unique_option options o Hnd Hin)).
  unfold radio_label. now destruct (opt_id o).
Qed.

Lemma export_prints_checked_radio_witness :
  let base := {| it_id := "d2_1"; prompt := "Tom ____ to a secondary school.";
                 guidance := None |} in
  let o := {| opt_id := opt_b; label := "goes" |} in
  let options := [{| opt_id := opt_a; label := "go" |}; o;
                  {| opt_id := opt_c; label := "went" |}] in
  export_answer (<["d2_1" := "b"]> ∅) (MCQItem base options opt_b) = radio_label o.
Proof.
  intros base o options.
  apply (export_prints_checked_radio (<["d2_1" := "b"]> ∅) base options opt_b o).
  - apply (bool_decide_unpack _). vm_compute. exact I.
  - subst options. rewrite !elem_of_cons. auto.
  - reflexivity.
Defined.

(** ** Hints on the results view *)

(** X25.  For the hint of a short item the tip is shown exactly when the
    badge reads Check details; the badge reads Not answered exactly when
    the stored answer is empty once trimmed, whatever the keywords. *)
Theorem hint_tip_iff_check_details answers base keywords :
  let h := shortHint answers base keywords in
  (is_Some (hint_tip h) <-> hint_badge h = "Check details") /\
  (hint_badge h = "Not answered" <->
   JS.trim (JS.or_empty (answers !! it_id base)) = EmptyString) /\
  (hint_tip h = None \/
   hint_tip h = Some ("Tip: Try including one of these ideas: " +:+
                      JS.join ", " (default [] keywords))).
Proof.
  intros h. subst h. unfold hint_tip, hint_badge, shortHint. simpl.
  destruct (JS.trim (JS.or_empty (answers !! it_id base))) eqn:Et; simpl.
  - split; [split; [intros [? ?]; discriminate | discriminate]|]. split; [tauto | now left].
  - destruct keywords as [[|k ks]|]; simpl.
    + split; [split; [intros [? ?]; discriminate | discriminate]|].
      split; [split; discriminate | now left].
    + destruct (containsAnyKeyword _ _); simpl.
      * split; [split; [intros [? ?]; discriminate | discriminate]|].
        split; [split; discriminate | now left].
      * split; [split; [reflexivity | eauto]|]. split; [split; discriminate | now right].
    + split; [split; [intros [? ?]; discriminate | discriminate]|].
      split; [split; discriminate | now left].
Qed.

(** ** The catalog *)

(** In each of the three tests of the catalog the item ids are unique,
    every mcq item has the options a, b, c in this order, every text item
    accepts at least one answer and none without a letter or a digit, no
    keyword is without a letter or a digit, and there is exactly one
    writing item. *)
Lemma TESTS_well_formed : forall key, test_well_formed (TESTS key) = true.
Proof. intros key. destruct key; vm_compute; reflexivity. Qed.

(** ** Answers without letters and digits *)

(** X26.  For accepted answers and stored answers of code units below
    U+0100: when every accepted answer of the text items has a letter a-z,
    A-Z or a digit, an answer map whose stored strings have none, the empty
    map among them, scores nothing. *)
Theorem blank_answers_score_nothing T answers :
  forallb accepts_no_blank (allItems T) = true ->
  (forall id v, answers !! id = Some v -> no_alnum v = true) ->
  autoScore T answers = 0.
Proof.
  intros Hacc Hblank. rewrite autoScore_counts. rewrite forallb_forall in Hacc.
  assert (Hgiven : forall id, no_alnum (JS.or_empty (answers !! id)) = true).
  { intros id. destruct (answers !! id) as [v|] eqn:E; [now apply (Hblank id)|reflexivity]. }
  rewrite !count_none; [reflexivity| |].
  - intros it Hit. specialize (Hacc it (proj1 (list_elem_of_In _ _) Hit)).
    unfold text_correct, stored, accepts_no_blank in *.
    destruct (item it) as [|b acc| |]; try reflexivity.
    apply not_true_is_false. intros H.
    apply (equalsAny_blank _ _ (Hgiven _)) in H as (c & Hc & Hn).
    rewrite forallb_forall in Hacc.
    specialize (Hacc c (proj1 (list_elem_of_In _ _) Hc)). now rewrite Hn in Hacc.
  - intros it _. unfold mcq_correct, stored.
    destruct (item it) as [b o a| | |]; try reflexivity.
    apply not_true_is_false. intros H%String.eqb_eq.
    specialize (Hgiven (item_id (MCQItem b o a))). rewrite H in Hgiven.
    now destruct a.
Qed.

Lemma blank_answers_score_nothing_witness :
  autoScore TEST_day2 (<["d2_s1" := " ... "]> (<["d2_1" := "?"]> ∅)) = 0.
Proof.
  apply (blank_answers_score_nothing TEST_day2); [reflexivity|].
  intros id v. rewrite lookup_insert. case_decide as E1; [intros [= <-]; reflexivity|].
  rewrite lookup_insert. case_decide as E2; [intros [= <-]; reflexivity|].
  rewrite lookup_empty. discriminate.
Defined.

(** ** Hints of a complete session *)

(** X27.  When the completion check holds, every short item has an
    answer, so no hint reads Not answered. *)
Theorem complete_sessions_have_answered_hints T answers h :
  isComplete T answers = true -> h ∈ shortHints T answers ->
  ok h = true /\ hint_badge h <> "Not answered".
Proof.
  intros Hc (it & base & keywords & Hit & E & ->)%shortHints_elem.
  unfold isComplete in Hc. rewrite forallb_forall in Hc.
  specialize (Hc it (proj1 (list_elem_of_In _ _) Hit)).
  unfold attempted, item_id in Hc. rewrite E in Hc. simpl in Hc.
  assert (Hok : ok (shortHint answers base keywords) = true).
  { unfold shortHint. simpl. now destruct (answers !! it_id base). }
  split; [exact Hok|]. unfold hint_badge. rewrite Hok.
  now destruct (hasHint _).
Qed.

Lemma complete_sessions_have_answered_hints_witness :
  let h := shortHint answers_day2_all
             {| it_id := "d2_s3";
                prompt := "Write one sentence in the future tense about tomorrow.";
                guidance := Some "Example: I will study English tomorrow." |}
             (Some ["will"]) in
  ok h = true /\ hint_badge h <> "Not answered".
Proof.
  intros h. apply (complete_sessions_have_answered_hints TEST_day2 answers_day2_all h).
  - reflexivity.
  - apply list_elem_of_In. vm_compute. auto.
Defined.

(** ** Storing an answer that is not blank *)

(** X28.  Storing for an id a string that is not white space only never
    lowers the attempted count, and every item of that id then counts as
    attempted, whatever its type. *)
Theorem nonblank_answer_counts T answers id v :
  JS.trim v <> EmptyString ->
  attemptedCount T answers <= attemptedCount T (<[id := v]> answers) /\
  forall it, item_id (item it) = id -> attempted (<[id := v]> answers) it = true.
Proof.
  intros Hv.
  assert (Hid : forall it, item_id (item it) = id ->
                           attempted (<[id := v]> answers) it = true).
  { intros it <-. apply nonblank_attempted. exists v. now rewrite lookup_insert_eq. }
  split; [|exact Hid].
  apply (count_mono (attempted answers) (attempted (<[id := v]> answers))).
  intros it _ Ha. destruct (decide (item_id (item it) = id)) as [E|E]; [now apply Hid|].
  rewrite <- Ha. apply attempted_ext. now apply lookup_insert_ne.
Qed.

Lemma nonblank_answer_counts_witness :
  attemptedCount TEST_day2 ∅ <= attemptedCount TEST_day2 (<["d2_w1" := "I read."]> ∅).
Proof.
  apply (nonblank_answer_counts TEST_day2 ∅ "d2_w1" "I read."). discriminate.
Defined.

(** * The page against the claims in their own words *)

(** ** The items of a test *)

Lemma allItems_items T : map item (allItems T) = flat_map items (sections T).
Proof.
  unfold allItems. induction (sections T) as [|s ss IH]; [reflexivity|].
  simpl. rewrite map_app, IH. f_equal. rewrite map_map. simpl. apply map_id.
Qed.

Lemma allItems_length T : length (allItems T) = length (flat_map items (sections T)).
Proof. now rewrite <- allItems_items, length_map. Qed.

Lemma count_map {A B} (f : A -> B) (p : B -> bool) l :
  count (fun x => p (f x)) l = length (filter (fun y => p y = true) (map f l)).
Proof.
  induction l as [|x l IH]; [reflexivity|]. rewrite count_cons. simpl.
  rewrite filter_cons. destruct (decide (p (f x) = true)) as [E|E].
  - rewrite E. simpl. now rewrite IH.
  - apply not_true_is_false in E. rewrite E. now rewrite IH.
Qed.

Lemma count_items (p : Item -> bool) T :
  count (fun x => p (item x)) (allItems T) =
  length (filter (fun it => p it = true) (flat_map items (sections T))).
Proof. now rewrite count_map, allItems_items. Qed.

Lemma elem_of_items T s it :
  s ∈ sections T -> it ∈ items s -> it ∈ flat_map items (sections T).
Proof.
  intros Hs Hit. apply list_elem_of_In, in_flat_map. exists s.
  now rewrite <- !list_elem_of_In.
Qed.

Lemma is_empty_eqb s : JS.is_empty s = String.eqb s EmptyString.
Proof. now destruct s. Qed.

Lemma is_empty_trim s : JS.is_empty (JS.trim s) = all_space s.
Proof.
  apply eq_true_iff_eq. rewrite <- trim_empty_iff.
  destruct (JS.trim s); simpl; split; congruence.
Qed.

Lemma answer_or_empty_lookup answers id :
  answer_or_empty answers id = JS.or_empty (answers !! id).
Proof. unfold answer_or_empty. now destruct (answers !! id). Qed.

(** ** Completion *)

Lemma attempted_answered answers x : attempted answers x = answered answers (item x).
Proof.
  unfold attempted, answered.
  destruct (answers !! item_id (item x)) as [a|]; [|now destruct (item_type (item x))].
  destruct (item_type (item x)); simpl;
    rewrite ?is_empty_trim; try reflexivity. now rewrite is_empty_eqb.
Qed.

Lemma attemptedCount_answered T answers :
  attemptedCount T answers =
  length (filter (fun it => answered answers it = true) (flat_map items (sections T))).
Proof.
  rewrite <- (count_items (answered answers)). unfold attemptedCount.
  apply (count_ext (attempted answers)). apply attempted_answered.
Qed.

(** C1.  The completion check holds exactly when the attempted count is
    the number of items in the sections of the selected test.  On a test
    none of whose ids is the name of an inherited property, the attempted
    count is the number of those items whose stored answer is not empty: a
    stored string other than the empty one for an mcq item, a stored string
    that is not white space only for the other types.  The Finish button is
    enabled by this check, and a step that turns [finished] from false to
    true is a click on it, taken in a state where the attempted count is
    the number of items. *)
Theorem completion_gates_finish :
  (forall T answers,
      isComplete T answers = true <->
      attemptedCount T answers = length (flat_map items (sections T))) /\
  (forall T answers,
      plain_ids T = true ->
      attemptedCount T answers =
      length (filter (fun it => answered answers it = true)
                     (flat_map items (sections T)))) /\
  (forall catalog s,
      enabled catalog s ClickFinish =
      tab_eqb (tab s) test && isComplete (TEST catalog s) (answers s)) /\
  (forall catalog s e s',
      step catalog s e s' -> finished s = false -> finished s' = true ->
      e = ClickFinish /\
      attemptedCount (TEST catalog s) (answers s) =
      length (flat_map items (sections (TEST catalog s)))).
Proof.
  split; [intros T answers; rewrite <- allItems_length; apply isComplete_attemptedCount|].
  split; [intros T answers _; apply attemptedCount_answered|].
  split; [reflexivity|].
  intros catalog s e s' Hstep Hf Hf'.
  pose proof (finished_only_by_finish _ _ _ _ Hstep Hf Hf') as ->.
  split; [reflexivity|]. inversion Hstep as [e He]. simpl in He.
  apply andb_true_iff in He as [_ He]. rewrite <- allItems_length.
  now apply isComplete_attemptedCount.
Qed.

(** C1 at the third test: seven items, all answered, and the click on
    Finish. *)
Lemma completion_gates_finish_witness :
  let s := {| selectedTestKey := day2; tab := test; answers := answers_day2_all;
              selfScoreWriting := None; finished := false |} in
  step TESTS s ClickFinish (finish s) /\
  attemptedCount TEST_day2 answers_day2_all =
  length (filter (fun it => answered answers_day2_all it = true)
                 (flat_map items (sections TEST_day2))) /\
  attemptedCount (TEST TESTS s) (answers s) = 7.
Proof.
  intros s.
  assert (Hstep : step TESTS s ClickFinish (finish s))
    by (apply (step_event TESTS s ClickFinish); vm_compute; reflexivity).
  split; [exact Hstep|]. split.
  - apply (proj1 (proj2 completion_gates_finish) TEST_day2 answers_day2_all). reflexivity.
  - apply (proj2 (proj2 (proj2 completion_gates_finish)) TESTS s ClickFinish (finish s) Hstep);
      reflexivity.
Defined.

(** ** Auto-score *)

Lemma autoScore_items T answers :
  autoScore T answers =
  length (filter (fun it => item_mcq_correct answers it = true)
                 (flat_map items (sections T))) +
  length (filter (fun it => item_text_correct answers it = true)
                 (flat_map items (sections T))).
Proof.
  rewrite autoScore_counts, <- !count_items. f_equal; apply count_ext; intros x;
    unfold mcq_correct, text_correct, item_mcq_correct, item_text_correct, stored, item_id;
    destruct (item x); simpl; rewrite ?answer_or_empty_lookup; reflexivity.
Qed.

(** C2.  The auto-score is the number of mcq items in the sections of the
    test whose stored code is the answer of the item, plus the number of
    text items there whose stored answer [equalsAny] accepts against the
    accepted answers of the item, a missing answer being read as the empty
    string in both.  A turn of the loop on a short or a writing item leaves
    the count as it is, so does taking these items out of the test; an id
    with no answer scores as the same id with the empty string. *)
Theorem autoScore_spec :
  (forall T answers,
      autoScore T answers =
      length (filter (fun it => item_mcq_correct answers it = true)
                     (flat_map items (sections T))) +
      length (filter (fun it => item_text_correct answers it = true)
                     (flat_map items (sections T)))) /\
  (forall answers n it,
      item_type (item it) = short \/ item_type (item it) = writing ->
      autoScore_step answers n it = n) /\
  (forall T answers,
      autoScore (without_type short T) answers = autoScore T answers /\
      autoScore (without_type writing T) answers = autoScore T answers) /\
  (forall T answers id,
      autoScore T (delete id answers) = autoScore T (<[id := EmptyString]> answers)).
Proof.
  split; [exact autoScore_items|]. split; [|split].
  - intros answers n it. unfold autoScore_step.
    destruct (item it); simpl; intros [H|H]; try discriminate; reflexivity.
  - intros T answers. split; apply autoScore_without_type; auto.
  - intros T answers id. apply autoScore_ext. intros id'.
    destruct (decide (id = id')) as [->|Hne].
    + now rewrite lookup_delete_eq, lookup_insert_eq.
    + now rewrite lookup_delete_ne, lookup_insert_ne.
Qed.

(** C2 at a short item of the third test whose stored answer is there. *)
Lemma autoScore_spec_witness :
  let it := {| item := ShortItem {| it_id := "d2_s3";
                                    prompt := "Write one sentence in the future tense about tomorrow.";
                                    guidance := Some "Example: I will study English tomorrow." |}
                         (Some ["will"]);
               sectionName := "Task 2: Build sentences" |} in
  autoScore_step answers_day2_all 2 it = 2.
Proof.
  intros it. apply (proj1 (proj2 autoScore_spec) answers_day2_all 2 it).
  left. reflexivity.
Defined.

(** Three of the four auto-scored items of the third test answered
    correctly, by the count over its sections. *)
Example autoScore_items_day2 :
  let a := <["d2_3" := "c"]> answers_day2_all in
  autoScore TEST_day2 a = 3 /\
  length (filter (fun it => item_mcq_correct a it = true)
                 (flat_map items (sections TEST_day2))) = 2 /\
  length (filter (fun it => item_text_correct a it = true)
                 (flat_map items (sections TEST_day2))) = 1.
Proof. vm_compute. auto. Qed.

(** ** Points *)

Lemma count_is_type ty T :
  count (is_type ty) (allItems T) =
  length (filter (fun it => item_type it = ty) (flat_map items (sections T))).
Proof.
  rewrite <- allItems_items. induction (allItems T) as [|x l IH]; [reflexivity|].
  rewrite count_cons. simpl. rewrite filter_cons. unfold is_type at 1.
  destruct (decide (item_type (item x) = ty)) as [E|E].
  - rewrite bool_decide_eq_true_2 by exact E. simpl. now rewrite IH.
  - rewrite bool_decide_eq_false_2 by exact E. exact IH.
Qed.

(** C6.  The total is the number of mcq items plus the number of text
    items in the sections of the test, plus one: the one point of the
    writing self-check, whether the test has no writing item, one, or
    several.  The final score is the auto-score plus the writing self-score
    when one is set, and the auto-score alone otherwise. *)
Theorem points_spec :
  (forall T,
      totalPoints T = length (autoScoredItems T) + 1 /\
      totalPoints T =
      length (filter (fun it => item_type it = mcq) (flat_map items (sections T))) +
      length (filter (fun it => item_type it = text) (flat_map items (sections T))) + 1) /\
  (forall T sid sname bases,
      totalPoints (with_writing_section T sid sname bases) = totalPoints T) /\
  (forall T, totalPoints (without_type writing T) = totalPoints T) /\
  (forall T answers n, finalScore T answers (Some n) = autoScore T answers + n) /\
  (forall T answers, finalScore T answers None = autoScore T answers).
Proof.
  assert (Hcount : forall T, totalPoints T = count is_auto_scored (allItems T) + 1)
    by reflexivity.
  split; [|split; [|split; [|split]]].
  - intros T. split; [reflexivity|].
    now rewrite Hcount, count_auto_scored, !count_is_type.
  - intros T sid sname bases.
    rewrite !Hcount, allItems_with_writing_section, count_app.
    rewrite (count_none is_auto_scored (map _ bases)); [lia|].
    intros x Hx. apply list_elem_of_fmap in Hx as (b & -> & _). reflexivity.
  - intros T. rewrite !Hcount, allItems_without_type. f_equal.
    apply count_filter. intros it. unfold is_auto_scored.
    destruct (item_type (item it)); simpl; congruence.
  - reflexivity.
  - intros T answers. unfold finalScore. simpl. lia.
Qed.

(** The totals of the three tests of the catalog. *)
Example points_catalog :
  totalPoints TEST_original = 9 /\ totalPoints TEST_day1 = 7 /\ totalPoints TEST_day2 = 5.
Proof. vm_compute. auto. Qed.

(** ** Hints *)

Lemma shortHints_items T answers :
  shortHints T answers = omap (item_hint answers) (flat_map items (sections T)).
Proof.
  unfold shortHints. rewrite <- allItems_items.
  induction (allItems T) as [|x l IH]; [reflexivity|].
  rewrite filter_cons. simpl.
  destruct (decide (is_short x = true)) as [Hs|Hs]; unfold is_short in Hs.
  - destruct (item x) as [| |base keywords|] eqn:E; try discriminate.
    simpl. rewrite E. simpl. now rewrite IH.
  - destruct (item x) as [| |base keywords|] eqn:E; simpl; try exact IH.
    now destruct Hs.
Qed.

Lemma autoScore_insert_other_items T answers id v :
  (forall s it, s ∈ sections T -> it ∈ items s ->
                item_type it = mcq \/ item_type it = text -> item_id it <> id) ->
  autoScore T (<[id := v]> answers) = autoScore T answers.
Proof.
  intros H. apply autoScore_insert_other. intros x Hx Hauto.
  destruct (elem_of_allItems_inv T x Hx) as (s & Hs & Hit & _).
  apply (H s (item x) Hs Hit). unfold is_auto_scored in Hauto.
  destruct (item_type (item x)); auto; discriminate.
Qed.

(** C7.  The hints are those of the short items in the sections of the
    test, in the order of the test, and no other item has one.  For a short
    item [ok] is true exactly when the stored answer, a missing one read as
    empty, is not empty once trimmed; [hasHint] is true when the item has
    no keywords, the field absent or the list empty, and is
    [containsAnyKeyword] of the answer and the keywords otherwise.  The
    scores do not depend on the hints: they are the same whatever the
    keywords, whatever is stored under an id that no mcq or text item
    bears, and in the test with the short items taken out, which has no
    hint at all. *)
Theorem shortHints_spec :
  (forall T answers,
      shortHints T answers = omap (item_hint answers) (flat_map items (sections T))) /\
  (forall answers base keywords,
      let text := JS.or_empty (answers !! it_id base) in
      let h := shortHint answers base keywords in
      (ok h = true <-> JS.trim text <> EmptyString) /\
      (keywords = None \/ keywords = Some [] -> hasHint h = true) /\
      (forall k ks, keywords = Some (k :: ks) ->
                    hasHint h = containsAnyKeyword text keywords)) /\
  (forall T answers w f,
      autoScore (set_keywords f T) answers = autoScore T answers /\
      finalScore (set_keywords f T) answers w = finalScore T answers w) /\
  (forall T answers w id v,
      (forall s it, s ∈ sections T -> it ∈ items s ->
                    item_type it = mcq \/ item_type it = text -> item_id it <> id) ->
      autoScore T (<[id := v]> answers) = autoScore T answers /\
      finalScore T (<[id := v]> answers) w = finalScore T answers w) /\
  (forall T answers w,
      shortHints (without_type short T) answers = [] /\
      autoScore (without_type short T) answers = autoScore T answers /\
      finalScore (without_type short T) answers w = finalScore T answers w).
Proof.
  split; [exact shortHints_items|]. split; [|split; [|split]].
  - intros answers base keywords text h. subst text h. simpl. split; [|split].
    + destruct (JS.trim _); simpl; split; congruence.
    + intros [->| ->]; reflexivity.
    + intros k ks ->. reflexivity.
  - intros T answers w f. unfold finalScore. now rewrite autoScore_set_keywords.
  - intros T answers w id v H. unfold finalScore.
    now rewrite (autoScore_insert_other_items _ _ _ _ H).
  - intros T answers w. unfold finalScore.
    rewrite autoScore_without_type by auto. split; [|auto].
    unfold shortHints. rewrite allItems_without_type.
    induction (allItems T) as [|it l IH]; [reflexivity|].
    rewrite filter_cons. destruct (decide (item_type (item it) <> short)) as [Hn|Hn].
    + rewrite filter_cons. destruct (decide (is_short it = true)) as [Hs|Hs]; [|exact IH].
      unfold is_short in Hs. destruct (item_type (item it)); try discriminate. now destruct Hn.
    + exact IH.
Qed.

(** C7 at the third test: its two hints, and a new answer to the short
    item d2_s2 that leaves the scores as they are. *)
Lemma shortHints_spec_witness :
  map hint_id (shortHints TEST_day2 answers_day2_all) = ["d2_s2"; "d2_s3"] /\
  autoScore TEST_day2 (<["d2_s2" := "I play football."]> answers_day2_all) =
  autoScore TEST_day2 answers_day2_all /\
  finalScore TEST_day2 (<["d2_s2" := "I play football."]> answers_day2_all) (Some 1) =
  finalScore TEST_day2 answers_day2_all (Some 1).
Proof.
  split.
  - rewrite (proj1 shortHints_spec TEST_day2 answers_day2_all). reflexivity.
  - apply (proj1 (proj2 (proj2 (proj2 shortHints_spec)))
             TEST_day2 answers_day2_all (Some 1) "d2_s2" "I play football.").
    intros s it Hs Hit Hty.
    apply list_elem_of_In in Hs. vm_compute in Hs.
    repeat (destruct Hs as [<-|Hs];
            [apply list_elem_of_In in Hit; vm_compute in Hit;
             repeat (destruct Hit as [<-|Hit];
                     [first [discriminate | destruct Hty; discriminate]|]);
             destruct Hit|]).
    destruct Hs.
Defined.

(** ** [normalize] by words *)

Lemma spec_class_staged c :
  match spec_letter_or_digit c with
  | Some l => staged c = l /\ JS.is_space l = false
  | None => JS.is_space (staged c) = true
  end.
Proof. destruct c as [[] [] [] [] [] [] [] []]; vm_compute; auto. Qed.

Lemma spec_unwords_cons w ws :
  spec_unwords (w :: ws) =
  match ws with
  | [] => w
  | _ :: _ => w +:+ String JS.space (spec_unwords ws)
  end.
Proof. now destruct ws. Qed.

Lemma spec_unwords_push w ws : spec_unwords (spec_push_word EmptyString (spec_push_word w ws)) =
                               spec_unwords (spec_push_word w ws).
Proof. reflexivity. Qed.

Lemma spec_unwords_nonempty ws :
  Forall (fun w => w <> EmptyString) ws -> ws <> [] -> spec_unwords ws <> EmptyString.
Proof.
  intros Hall Hne. destruct ws as [|w ws]; [congruence|].
  apply Forall_cons in Hall as [Hw _]. rewrite spec_unwords_cons.
  destruct w as [|c w]; [congruence|]. destruct ws; discriminate.
Qed.

Lemma spec_push_word_nonempty w ws :
  Forall (fun w => w <> EmptyString) ws ->
  Forall (fun w => w <> EmptyString) (spec_push_word w ws).
Proof. intros H. destruct w; [exact H|]. constructor; [discriminate | exact H]. Qed.

(** What the scan of [normalize] leaves, with and without a run of white
    space before, against the words of the string. *)
Lemma runs_words s :
  let (w, ws) := spec_scan s in
  JS.trimEnd (JS.replace_space_runs_from true (JS.map_chars staged s)) =
    spec_unwords (spec_push_word w ws) /\
  JS.trimEnd (JS.replace_space_runs_from false (JS.map_chars staged s)) =
    spec_unwords (w :: ws) /\
  Forall (fun w => w <> EmptyString) ws.
Proof.
  induction s as [|c s IH]; [repeat split; constructor|].
  simpl. destruct (spec_scan s) as [w ws]. destruct IH as (IH1 & IH2 & IH3).
  pose proof (spec_class_staged c) as Hc.
  destruct (spec_letter_or_digit c) as [l|].
  - destruct Hc as [-> Hl]. rewrite Hl. simpl. rewrite Hl, IH2. simpl.
    repeat split; auto; now destruct ws.
  - rewrite Hc. simpl. rewrite IH1.
    split; [reflexivity|]. split; [|now apply spec_push_word_nonempty].
    destruct (spec_push_word w ws) as [|w' ws'] eqn:E; [reflexivity|].
    assert (Hne : spec_unwords (w' :: ws') <> EmptyString).
    { apply spec_unwords_nonempty; [|discriminate].
      rewrite <- E. now apply spec_push_word_nonempty. }
    destruct (spec_unwords (w' :: ws')); [congruence | reflexivity].
Qed.

Lemma runs_no_leading_space s :
  no_leading_space (JS.replace_space_runs_from true (JS.map_chars staged s)) = true.
Proof.
  induction s as [|c s IH]; [reflexivity|]. simpl.
  destruct (JS.is_space (staged c)) eqn:E; [exact IH|]. simpl. now rewrite E.
Qed.

Lemma trimStart_no_leading_space s : no_leading_space s = true -> JS.trimStart s = s.
Proof.
  destruct s as [|c s]; [reflexivity|]. simpl. intros H%negb_true_iff. now rewrite H.
Qed.

Lemma normalize_words s : normalize (Some s) = spec_unwords (spec_words s).
Proof.
  rewrite normalize_staged. unfold JS.trim, JS.replace_space_runs, spec_words.
  rewrite <- trimStart_runs_flag.
  rewrite (trimStart_no_leading_space _ (runs_no_leading_space s)).
  pose proof (runs_words s) as H. destruct (spec_scan s) as [w ws]. apply H.
Qed.

(** C3.  [normalize] is a function on every string and on a missing one.
    What it gives is the words of the string with one space between them,
    a word being a maximal run of letters a-z, A-Z and digits, put in lower
    case: every other character, white space or not, only separates words.
    This is what the four stages of the page come to: the change to lower
    case, a space for every character outside [a-z0-9\s], one space for
    every run of white space, and the trim.  The result is in normal form,
    [normalize] is idempotent, and the empty and the missing input give the
    empty string. *)
Theorem normalize_spec :
  (forall s, normalize s = spec_unwords (spec_words (JS.or_empty s))) /\
  (forall s,
      normalize s =
      JS.trim (JS.replace_space_runs (JS.replace_non_alnum (JS.toLowerCase (JS.or_empty s))))) /\
  (forall s, is_normal (normalize s) = true) /\
  (forall s, normalize (Some (normalize s)) = normalize s) /\
  normalize (Some EmptyString) = EmptyString /\
  normalize None = EmptyString.
Proof.
  split; [intros [s|]; [apply normalize_words | reflexivity]|].
  split; [reflexivity|]. split; [exact normalize_is_normal|].
  split; [|split; reflexivity].
  intros s. apply normalize_fixes_normal, normalize_is_normal.
Qed.

Example spec_words_examples :
  spec_words "  Emma's Day! " = ["emma"; "s"; "day"] /\
  spec_words "Tom went to school." = ["tom"; "went"; "to"; "school"] /\
  spec_words "8th-grade, X9" = ["8th"; "grade"; "x9"] /\
  spec_words " ?! " = [] /\
  spec_unwords ["tom"; "went"] = "tom went".
Proof. vm_compute. auto 10. Qed.

(** ** The export text *)

Lemma find_exists {A} (p : A -> bool) l x :
  x ∈ l -> p x = true -> exists y, List.find p l = Some y.
Proof.
  intros Hx Hp. destruct (List.find p l) as [y|] eqn:E; [eauto|].
  rewrite (find_none p l E x) in Hp; [discriminate|]. now apply list_elem_of_In.
Qed.

Lemma claim_export_answer_some answers it out :
  claim_export_answer answers it = Some out ->
  (item_type it = mcq -> all_space (answer_or_empty answers (item_id it)) = true ->
   answer_or_empty answers (item_id it) = EmptyString) ->
  export_answer answers it = out.
Proof.
  unfold claim_export_answer. intros Hc Hblank.
  destruct (decide (item_type it = mcq)) as [Hm|Hm].
  - destruct it as [base options answer| | |]; try discriminate.
    specialize (Hblank eq_refl). unfold export_answer, item_id, find_label in *.
    simpl in *. rewrite answer_or_empty_lookup in *.
    destruct (answers !! it_id base) as [v|]; simpl in *.
    + destruct (all_space v) eqn:Hv.
      * rewrite (Hblank eq_refl) in *. simpl. congruence.
      * destruct v as [|c v]; [discriminate|]. simpl.
        destruct (List.find _ options) as [o|]; simpl in *; congruence.
    + congruence.
  - rewrite (export_answer_other answers it Hm), is_empty_trim.
    rewrite answer_or_empty_lookup in Hc.
    destruct (all_space (JS.or_empty (answers !! item_id it))); [congruence|].
    destruct it; simpl in *; congruence.
Qed.

Lemma claim_export_answer_stored T answers s it :
  stores_option_codes T answers -> s ∈ sections T -> it ∈ items s ->
  claim_export_answer answers it = Some (export_answer answers it).
Proof.
  intros Hcodes Hs Hit.
  assert (Hdef : exists out, claim_export_answer answers it = Some out /\
                 (item_type it = mcq ->
                  all_space (answer_or_empty answers (item_id it)) = true ->
                  answer_or_empty answers (item_id it) = EmptyString)).
  { unfold claim_export_answer.
    destruct it as [base options answer|base acc|base kw|base];
      try (destruct (all_space _); eexists; (split; [reflexivity|]);
           intros Hty; discriminate Hty).
    unfold item_id. simpl. unfold answer_or_empty.
    destruct (answers !! it_id base) as [v|] eqn:Hv;
      [|eexists; split; [reflexivity | reflexivity]].
    destruct (Hcodes s base options answer v Hs Hit Hv) as (o & Ho & ->).
    assert (Hsp : all_space (code_of (opt_id o)) = false) by now destruct (opt_id o).
    rewrite Hsp.
    destruct (find_exists (fun o' => String.eqb (code_of (opt_id o')) (code_of (opt_id o)))
                options o Ho (String.eqb_refl _)) as (o' & ->).
    eexists. split; [reflexivity | discriminate]. }
  destruct Hdef as (out & Hout & Hblank).
  rewrite Hout. f_equal. symmetry. now apply claim_export_answer_some.
Qed.

Lemma mapM_map {A B} (f : A -> option B) (g : A -> B) l :
  (forall x, x ∈ l -> f x = Some (g x)) -> mapM f l = Some (map g l).
Proof.
  intros H. apply mapM_Some_2. induction l as [|x l IH]; constructor.
  - apply H, list_elem_of_here.
  - apply IH. intros y Hy. apply H. now apply list_elem_of_further.
Qed.

Lemma blank_line_between_join blocks :
  blank_line_between blocks = JS.join (JS.newline +:+ JS.newline) blocks.
Proof.
  induction blocks as [|b [|b' rest] IH]; try reflexivity.
  change (blank_line_between (b :: b' :: rest))
    with (b +:+ JS.newline +:+ JS.newline +:+ blank_line_between (b' :: rest)).
  rewrite IH. reflexivity.
Qed.

Lemma test_order_blocks T answers :
  map (fun p => export_block answers p.1 p.2) (test_order T) =
  flat_map (fun s => map (export_block answers s) (items s)) (sections T).
Proof.
  unfold test_order. induction (sections T) as [|s ss IH]; [reflexivity|].
  simpl. rewrite map_app, IH. f_equal. now rewrite map_map.
Qed.

Lemma elem_of_test_order T s it : (s, it) ∈ test_order T -> s ∈ sections T /\ it ∈ items s.
Proof.
  unfold test_order. intros H. apply list_elem_of_In, in_flat_map in H as (s' & Hs & H).
  apply in_map_iff in H as (it' & [= -> ->] & Hit). now rewrite <- !list_elem_of_In in *.
Qed.

Lemma claim_exportText_stored T answers :
  stores_option_codes T answers ->
  claim_exportText T answers = Some (exportText T answers).
Proof.
  intros Hcodes. unfold claim_exportText, exportText.
  rewrite (mapM_map _ (fun p => export_block answers p.1 p.2)).
  - simpl. now rewrite blank_line_between_join, test_order_blocks.
  - intros [s it] [Hs Hit]%elem_of_test_order. unfold claim_block. simpl.
    now rewrite (claim_export_answer_stored T answers s it Hcodes Hs Hit).
Qed.

Lemma reachable_stores_option_codes catalog s :
  unique_ids catalog -> reachable catalog s ->
  stores_option_codes (TEST catalog s) (answers s).
Proof.
  intros Hu Hs sec base options answer v Hsec Hit Hv.
  apply (reachable_mcq_answers catalog s Hu Hs
           {| item := MCQItem base options answer; sectionName := name sec |}
           base options answer v); auto.
  now apply elem_of_allItems.
Qed.

(** C9.  On every answer map that stores, for the mcq items of the test,
    codes of their options, which is what the radio buttons store, and so
    in every state the page can reach when the ids of the items are unique,
    the export text is the blocks of the items in the order of the test
    with one blank line between them; a block is the line of the section
    name, the bullet and the prompt, then the line of the answer; the
    answer is the dash when no answer or a white-space-only answer is
    stored, else the capital code, a closing bracket and the label of the
    option for an mcq item, and the stored string for the other types.  On
    any answer map at all, where this rule gives an answer the page prints
    it, but for an mcq item that stores white space. *)
Theorem exportText_renders_stored_answers :
  (forall T answers,
      stores_option_codes T answers ->
      claim_exportText T answers = Some (exportText T answers)) /\
  (forall catalog s,
      unique_ids catalog -> reachable catalog s ->
      claim_exportText (TEST catalog s) (answers s) =
      Some (exportText (TEST catalog s) (answers s))) /\
  (forall answers it out,
      claim_export_answer answers it = Some out ->
      (item_type it = mcq ->
       all_space (answer_or_empty answers (item_id it)) = true ->
       answer_or_empty answers (item_id it) = EmptyString) ->
      export_answer answers it = out).
Proof.
  split; [exact claim_exportText_stored|]. split; [|exact claim_export_answer_some].
  intros catalog s Hu Hs. apply claim_exportText_stored.
  now apply reachable_stores_option_codes.
Qed.

(** C9 in the first test, after a choice, a typed answer and a text area
    left with white space only. *)
Lemma exportText_renders_stored_answers_witness :
  let s := setAnswer "q2" "   "
             (setAnswer "q1" "They relax." (setAnswer "mc1" "b" (setTab test initial_session))) in
  reachable TESTS s /\
  claim_exportText (TEST TESTS s) (answers s) = Some (exportText (TEST TESTS s) (answers s)).
Proof.
  intros s.
  assert (Hs : reachable TESTS s).
  { apply (run_reachable TESTS [ClickStartTest; ChooseOption "mc1" opt_b;
                                TypeAnswer "q1" "They relax."; TypeAnswer "q2" "   "]
             initial_session); [apply reachable_initial | reflexivity]. }
  split; [exact Hs|].
  exact (proj1 (proj2 exportText_renders_stored_answers) TESTS s TESTS_unique_ids Hs).
Defined.

(** ** The attempted count at its ends *)

(** X8.  The attempted count never exceeds the number of items in the
    sections of the test.  On a test none of whose ids is the name of an
    inherited property, no answer stored means nothing attempted: the count
    is zero, and the completion check then holds only when the test has no
    item at all. *)
Theorem attemptedCount_bounds :
  (forall T answers,
      attemptedCount T answers <= length (flat_map items (sections T))) /\
  (forall T,
      plain_ids T = true ->
      attemptedCount T ∅ = 0 /\
      (isComplete T ∅ = true <-> flat_map items (sections T) = [])).
Proof.
  assert (H0 : forall T, attemptedCount T ∅ = 0).
  { intros T. apply (count_none (attempted ∅)). intros it _. apply attempted_empty. }
  split.
  - intros T answers. rewrite <- allItems_length.
    apply (count_le_length (attempted answers)).
  - intros T _. split; [apply H0|].
    rewrite isComplete_attemptedCount, H0, allItems_length.
    destruct (flat_map items (sections T)); simpl; split; congruence.
Qed.

Lemma attemptedCount_bounds_witness :
  attemptedCount TEST_day2 ∅ = 0 /\
  (isComplete TEST_day2 ∅ = true <-> flat_map items (sections TEST_day2) = []).
Proof. apply (proj2 attemptedCount_bounds TEST_day2). reflexivity. Defined.
